(** * z-quantum-core: expectation-value estimation, cost function and gate records

    A shallow embedding of [zquantum/core/estimator.py] and
    [zquantum/core/cost_function.py], together with the serialisation
    contract that [circuit/gate/_gate_test.py] exercises.

    Python exceptions are values of [result]; code that touches the backend
    object runs in the state-and-exception monad [M], whose state carries the
    backend's mutable fields and a trace of every access to the backend. *)

From stdpp Require Import gmap strings list.
From Stdlib Require Import ZArith QArith.

Local Open Scope Z_scope.
Local Open Scope string_scope.
Local Open Scope list_scope.

(** ** Exceptions and fallible results *)

Inductive Exception : Type :=
  | ValueError (msg : string)
  | AttributeError (msg : string)
  | AssertionError
  | KeyError
  | OSError (path : string)
  | ExternalError (msg : string).

Inductive result (A : Type) : Type :=
  | Ok (a : A)
  | Raise (e : Exception).
Arguments Ok {A} a.
Arguments Raise {A} e.

Definition rbind {A B : Type} (r : result A) (k : A -> result B) : result B :=
  match r with
  | Ok a => k a
  | Raise e => Raise e
  end.

Declare Scope result_scope.
Delimit Scope result_scope with res.
Notation "'try!' x := r 'in' k" := (rbind r (fun x => k))
  (at level 10, x pattern, r at level 100, k at level 200) : result_scope.

(** A Python [for] loop whose body may raise: the loop state is threaded
    through the items in order and the first exception ends the loop. *)
Fixpoint for_each {A S : Type} (items : list A) (body : S -> A -> result S)
    (s : S) : result S :=
  match items with
  | [] => Ok s
  | x :: rest => rbind (body s x) (for_each rest body)
  end.

(** ** Circuits *)

(** An angle [np.pi * q]. *)
Record Angle : Type := PiTimes { pi_factor : Q }.

(** A pyquil gate instruction: name, parameters, qubits. *)
Record GateInstr : Type := MkGate {
  gate_name : string;
  gate_params : list Angle;
  gate_qubits : list nat
}.

(** [pyquil.gates.RX(angle, qubit)] and [pyquil.gates.RY(angle, qubit)]. *)
Definition RX (angle : Angle) (qubit : nat) : GateInstr := MkGate "RX" [angle] [qubit].
Definition RY (angle : Angle) (qubit : nat) : GateInstr := MkGate "RY" [angle] [qubit].

(** [np.pi / 2] and [-np.pi / 2]. *)
Definition half_pi : Angle := PiTimes (1 # 2).
Definition neg_half_pi : Angle := PiTimes (-1 # 2).

(** Modelled from the spec: the [Circuit] class of [zquantum.core.circuit]
    (imported by the estimator, absent from the sources): an ordered gate
    sequence; [Circuit()] is empty, [Circuit(gate)] holds the one gate, and
    [c1 + c2] is the concatenation of the two gate sequences in that order. *)
Definition Circuit : Type := list GateInstr.
Definition Circuit_empty : Circuit := [].
Definition Circuit_of_gate (g : GateInstr) : Circuit := [g].
Definition Circuit_add (c1 c2 : Circuit) : Circuit := c1 ++ c2.

(** ** Operators *)

(** A factor [(qubit, letter)] and a Pauli term in the OpenFermion
    convention: a tuple of factors. *)
Definition Factor : Type := nat * string.
Definition Term : Type := list Factor.

(** [QubitOperator.terms]: a dict from term to coefficient, in insertion
    order. *)
Record QubitOperator (Coef : Type) : Type := MkQubitOperator {
  terms : list (Term * Coef)
}.
Arguments MkQubitOperator {Coef} terms.
Arguments terms {Coef} q.

(** [qubit_operator.terms] iterated: the keys in order. *)
Definition term_keys {Coef} (qubit_operator : QubitOperator Coef) : list Term :=
  (terms qubit_operator).*1.

(** [qubit_operator.terms[term]]. *)
Fixpoint dict_get {Coef} (d : list (Term * Coef)) (term : Term) : result Coef :=
  match d with
  | [] => Raise KeyError
  | (k, v) :: rest => if decide (k = term) then Ok v else dict_get rest term
  end.

(** ** External collaborators

    What the two modules import and do not define: OpenFermion's
    [IsingOperator] algebra, the grouping function of
    [zquantum.core.hamiltonian], the measurement helpers of
    [zquantum.core.measurement], [np.sum], and [combine_ansatz_params] of
    [zquantum.core.circuit].  They are taken as an interface. *)
Class External : Type := {
  (** coefficients of operator terms *)
  Coef : Type;
  (** [IsingOperator], with [IsingOperator()], [IsingOperator(())],
      [IsingOperator((q, "Z"))], [a * b], [a + b], [a * coefficient] *)
  IsingOperator : Type;
  ising_zero : IsingOperator;
  ising_one : IsingOperator;
  ising_Z : nat -> IsingOperator;
  ising_mul : IsingOperator -> IsingOperator -> IsingOperator;
  ising_add : IsingOperator -> IsingOperator -> IsingOperator;
  ising_scale : IsingOperator -> Coef -> IsingOperator;
  (** [group_comeasureable_terms_greedy(qubit_operator, sort_terms)]; the
      second argument is optional, [None] standing for a call that omits it *)
  group_comeasureable_terms_greedy :
    QubitOperator Coef -> option bool -> result (list (QubitOperator Coef));
  (** floating-point numbers, [np.sum] *)
  Float : Type;
  np_sum : list Float -> Float;
  (** [Measurements], [ExpectationValues] and their helpers *)
  Measurements : Type;
  ExpectationValues : Type;
  values : ExpectationValues -> list Float;
  get_expectation_values : Measurements -> IsingOperator -> result ExpectationValues;
  expectation_values_to_real : ExpectationValues -> result ExpectationValues;
  concatenate_expectation_values : list ExpectationValues -> result ExpectationValues;
  (** parameter vectors ([np.ndarray]) and [combine_ansatz_params] *)
  ParamVector : Type;
  combine_ansatz_params : ParamVector -> ParamVector -> ParamVector;
  (** whatever else a backend object holds besides [n_samples] *)
  Device : Type
}.

(** The algebra the operators form: a monoid under the product and a monoid
    under the sum. *)
Class IsingLaws `{External} : Prop := {
  ising_mul_1_l : forall a, ising_mul ising_one a = a;
  ising_mul_1_r : forall a, ising_mul a ising_one = a;
  ising_mul_assoc : forall a b c,
    ising_mul a (ising_mul b c) = ising_mul (ising_mul a b) c;
  ising_add_0_l : forall a, ising_add ising_zero a = a;
  ising_add_0_r : forall a, ising_add a ising_zero = a;
  ising_add_assoc : forall a b c,
    ising_add a (ising_add b c) = ising_add (ising_add a b) c
}.

(** ** Hamiltonian decomposition methods *)

Section Decomposition.
Context `{External}.

(** A grouping function: operator to list of co-measurable groups. *)
Definition DecompositionFunction : Type :=
  QubitOperator Coef -> result (list (QubitOperator Coef)).

Definition DECOMPOSITION_METHODS : gmap string DecompositionFunction :=
  {[ "greedy" := (fun qubit_operator =>
                    group_comeasureable_terms_greedy qubit_operator None);
     "greedy-sorted" := (fun qubit_operator =>
                    group_comeasureable_terms_greedy qubit_operator (Some true)) ]}.

Definition unrecognized_method_message (decomposition_method : string) : string :=
  "Unrecognized decomposition method " ++ decomposition_method
  ++ ". Allowed values are dict_keys(['greedy', 'greedy-sorted'])".

Definition get_decomposition_function (decomposition_method : string)
    : result DecompositionFunction :=
  match DECOMPOSITION_METHODS !! decomposition_method with
  | None => Raise (ValueError (unrecognized_method_message decomposition_method))
  | Some decomposition_function => Ok decomposition_function
  end.
End Decomposition.

(** ** Context-selection circuits *)

Section ContextSelection.
Context `{External}.

(** The body shared by both builders: the rotation appended for a factor.
    [if factor[1] == "X": circuit += Circuit(RY(-np.pi / 2, factor[0]))
     elif factor[1] == "Y": circuit += Circuit(RX(np.pi / 2, factor[0]))]. *)
Definition append_rotation (context_selection_circuit : Circuit) (factor : Factor)
    : Circuit :=
  if decide (factor.2 = "X") then
    Circuit_add context_selection_circuit (Circuit_of_gate (RY neg_half_pi factor.1))
  else if decide (factor.2 = "Y") then
    Circuit_add context_selection_circuit (Circuit_of_gate (RX half_pi factor.1))
  else context_selection_circuit.

Definition get_context_selection_circuit (term : Term) : Circuit * IsingOperator :=
  fold_left
    (fun '(context_selection_circuit, operator) factor =>
       (append_rotation context_selection_circuit factor,
        ising_mul operator (ising_Z factor.1)))
    term (Circuit_empty, ising_one).

Definition not_comeasurable : Exception := ValueError "Terms are not co-measurable".

(** [for existing_factor in context: if existing_factor[0] == factor[0] and
    existing_factor[1] != factor[1]: raise ValueError(...)]. *)
Definition check_against_context (context : list Factor) (factor : Factor)
    : result unit :=
  for_each context
    (fun _ existing_factor =>
       if bool_decide (existing_factor.1 = factor.1)
          && negb (bool_decide (existing_factor.2 = factor.2))
       then Raise not_comeasurable
       else Ok tt)
    tt.

(** The body of [for factor in term], on the pair (context, term_operator). *)
Definition visit_factor (st : list Factor * IsingOperator) (factor : Factor)
    : result (list Factor * IsingOperator) :=
  let '(context, term_operator) := st in
  (try! _ := check_against_context context factor in
   let context := if decide (factor ∈ context) then context else context ++ [factor] in
   Ok (context, ising_mul term_operator (ising_Z factor.1)))%res.

(** The body of [for term in qubit_operator.terms], on the pair
    (context, operator). *)
Definition visit_term (qubit_operator : QubitOperator Coef)
    (st : list Factor * IsingOperator) (term : Term)
    : result (list Factor * IsingOperator) :=
  let '(context, operator) := st in
  (try! (context, term_operator) := for_each term visit_factor (context, ising_one) in
   try! coefficient := dict_get (terms qubit_operator) term in
   Ok (context, ising_add operator (ising_scale term_operator coefficient)))%res.

Definition get_context_selection_circuit_for_group
    (qubit_operator : QubitOperator Coef) : result (Circuit * IsingOperator) :=
  (try! (context, operator) :=
     for_each (term_keys qubit_operator) (visit_term qubit_operator) ([], ising_zero) in
   Ok (fold_left append_rotation context Circuit_empty, operator))%res.
End ContextSelection.

(** ** The backend object and the monad of code that uses it *)

Section Backend.
Context `{External}.

(** The mutable fields of the backend object. *)
Record BackendState : Type := MkBackendState {
  n_samples : option Z;
  device : Device
}.

(** The methods of a [QuantumBackend]; a method may raise and may change
    any field of the object. *)
Record QuantumBackend : Type := MkQuantumBackend {
  run_circuitset_and_measure :
    list Circuit -> BackendState -> result (list Measurements) * BackendState
}.

(** A [QuantumSimulator] is a [QuantumBackend] that also evaluates exactly. *)
Record QuantumSimulator : Type := MkQuantumSimulator {
  simulator_backend : QuantumBackend;
  get_exact_expectation_values :
    Circuit -> QubitOperator Coef -> BackendState
    -> result ExpectationValues * BackendState
}.

(** A backend argument, by its class. *)
Inductive Backend : Type :=
  | PlainBackend (b : QuantumBackend)
  | SimulatorBackend (s : QuantumSimulator).

Definition as_quantum_backend (backend : Backend) : QuantumBackend :=
  match backend with
  | PlainBackend b => b
  | SimulatorBackend s => simulator_backend s
  end.

(** [isinstance(backend, QuantumSimulator)]. *)
Definition isinstance_QuantumSimulator (backend : Backend) : option QuantumSimulator :=
  match backend with
  | PlainBackend _ => None
  | SimulatorBackend s => Some s
  end.

(** Every access to the backend object, in order. *)
Inductive Event : Type :=
  | ReadNSamples
  | WriteNSamples (v : option Z)
  | CallRunCircuitsetAndMeasure (circuits : list Circuit)
  | CallGetExactExpectationValues (circuit : Circuit) (operator : QubitOperator Coef).

Record World : Type := MkWorld {
  backend_state : BackendState;
  trace : list Event
}.

Definition M (A : Type) : Type := World -> result A * World.

Definition mreturn {A} (a : A) : M A := fun w => (Ok a, w).

Definition mraise {A} (e : Exception) : M A := fun w => (Raise e, w).

Definition mbind' {A B} (m : M A) (k : A -> M B) : M B :=
  fun w =>
    match m w with
    | (Ok a, w') => k a w'
    | (Raise e, w') => (Raise e, w')
    end.

(** A call that does not touch the backend. *)
Definition lift {A} (r : result A) : M A := fun w => (r, w).

(** [backend.n_samples] read. *)
Definition read_n_samples : M (option Z) :=
  fun w => (Ok (n_samples (backend_state w)),
            MkWorld (backend_state w) (trace w ++ [ReadNSamples])).

(** [backend.n_samples = v]. *)
Definition write_n_samples (v : option Z) : M unit :=
  fun w => (Ok tt,
            MkWorld (MkBackendState v (device (backend_state w)))
                    (trace w ++ [WriteNSamples v])).

(** [backend.run_circuitset_and_measure(circuits)]. *)
Definition call_run_circuitset_and_measure (backend : Backend)
    (circuits : list Circuit) : M (list Measurements) :=
  fun w =>
    let '(r, st) :=
      run_circuitset_and_measure (as_quantum_backend backend) circuits (backend_state w) in
    (r, MkWorld st (trace w ++ [CallRunCircuitsetAndMeasure circuits])).

(** [backend.get_exact_expectation_values(circuit, operator)]. *)
Definition call_get_exact_expectation_values (simulator : QuantumSimulator)
    (circuit : Circuit) (operator : QubitOperator Coef) : M ExpectationValues :=
  fun w =>
    let '(r, st) :=
      get_exact_expectation_values simulator circuit operator (backend_state w) in
    (r, MkWorld st (trace w ++ [CallGetExactExpectationValues circuit operator])).
End Backend.

Declare Scope M_scope.
Delimit Scope M_scope with M.
Notation "'do!' x := m 'in' k" := (mbind' m (fun x => k))
  (at level 10, x pattern, m at level 100, k at level 200) : M_scope.

(** ** Estimators *)

Section Estimators.
Context `{External}.

(** The [Estimator] interface: [get_estimated_expectation_values(backend,
    circuit, target_operator, n_samples, epsilon, delta)]. *)
Definition Estimator : Type :=
  Backend -> Circuit -> QubitOperator Coef ->
  option Z -> option Float -> option Float -> M ExpectationValues.

(** [for group in groups: ...] of [BasicEstimator], on the pair
    (frame_circuits, frame_operators). *)
Definition append_frame (circuit : Circuit)
    (st : list Circuit * list IsingOperator) (group : QubitOperator Coef)
    : result (list Circuit * list IsingOperator) :=
  let '(frame_circuits, frame_operators) := st in
  (try! (frame_circuit, frame_operator) := get_context_selection_circuit_for_group group in
   Ok (frame_circuits ++ [Circuit_add circuit frame_circuit],
       frame_operators ++ [frame_operator]))%res.

(** [for frame_operator, measurements in zip(frame_operators, measurements_set)]. *)
Definition append_expectation_values
    (expectation_values_set : list ExpectationValues)
    (pair : IsingOperator * Measurements) : result (list ExpectationValues) :=
  let '(frame_operator, measurements) := pair in
  (try! ev := get_expectation_values measurements frame_operator in
   try! ev := expectation_values_to_real ev in
   Ok (expectation_values_set ++ [ev]))%res.

Definition BasicEstimator_get_estimated_expectation_values
    (backend : Backend) (circuit : Circuit) (target_operator : QubitOperator Coef)
    (n_samples : option Z) (epsilon delta : option Float)
    (decomposition_method : string) : M ExpectationValues :=
  (do! decomposition_function := lift (get_decomposition_function decomposition_method) in
   do! groups := lift (decomposition_function target_operator) in
   do! (frame_circuits, frame_operators) :=
     lift (for_each groups (append_frame circuit) ([], [])) in
   do! measurements_set :=
     match n_samples with
     | Some n =>
         (* the warning's message reads backend.n_samples *)
         do! _ := read_n_samples in
         do! saved_n_samples := read_n_samples in
         do! _ := write_n_samples (Some n) in
         do! measurements_set := call_run_circuitset_and_measure backend frame_circuits in
         do! _ := write_n_samples saved_n_samples in
         mreturn measurements_set
     | None => call_run_circuitset_and_measure backend frame_circuits
     end in
   do! expectation_values_set :=
     lift (for_each (zip frame_operators measurements_set) append_expectation_values []) in
   do! concatenated := lift (concatenate_expectation_values expectation_values_set) in
   lift (expectation_values_to_real concatenated))%M.

(** [BasicEstimator()] as an [Estimator]: [decomposition_method] takes its
    default. *)
Definition BasicEstimator : Estimator :=
  fun backend circuit target_operator n_samples epsilon delta =>
    BasicEstimator_get_estimated_expectation_values
      backend circuit target_operator n_samples epsilon delta "greedy-sorted".

Definition not_a_simulator : Exception :=
  AttributeError "To use the ExactEstimator, the backend must be a QuantumSimulator.".

Definition ExactEstimator_get_estimated_expectation_values
    (backend : Backend) (circuit : Circuit) (target_operator : QubitOperator Coef)
    (n_samples : option Z) (epsilon delta : option Float) : M ExpectationValues :=
  match isinstance_QuantumSimulator backend with
  | Some simulator => call_get_exact_expectation_values simulator circuit target_operator
  | None => mraise not_a_simulator
  end.

Definition ExactEstimator : Estimator :=
  ExactEstimator_get_estimated_expectation_values.
End Estimators.

(** ** The ansatz-based cost function *)

Section CostFunction.
Context `{External}.

(** The [Ansatz] interface, as far as the cost function uses it. *)
Record Ansatz : Type := MkAnsatz {
  get_executable_circuit : ParamVector -> result Circuit
}.

(** [ValueEstimate(value, precision=None)]. *)
Record ValueEstimate : Type := MkValueEstimate {
  value : Float;
  precision : option Float
}.

Record AnsatzBasedCostFunction : Type := MkAnsatzBasedCostFunction {
  target_operator : QubitOperator Coef;
  ansatz : Ansatz;
  backend : Backend;
  estimator : Estimator;
  cf_n_samples : option Z;
  epsilon : option Float;
  delta : option Float;
  fixed_parameters : option ParamVector
}.

(** [AnsatzBasedCostFunction.__init__]; an omitted estimator is [None]. *)
Definition AnsatzBasedCostFunction_init
    (target_operator : QubitOperator Coef) (ansatz : Ansatz) (backend : Backend)
    (estimator : option Estimator) (n_samples : option Z)
    (epsilon delta : option Float) (fixed_parameters : option ParamVector)
    : AnsatzBasedCostFunction :=
  MkAnsatzBasedCostFunction target_operator ansatz backend
    (match estimator with
     | None => BasicEstimator
     | Some estimator => estimator
     end)
    n_samples epsilon delta fixed_parameters.

(** [AnsatzBasedCostFunction.__call__]. *)
Definition AnsatzBasedCostFunction_call (self : AnsatzBasedCostFunction)
    (parameters : ParamVector) : M ValueEstimate :=
  let parameters :=
    match fixed_parameters self with
    | Some fixed => combine_ansatz_params fixed parameters
    | None => parameters
    end in
  (do! circuit := lift (get_executable_circuit (ansatz self) parameters) in
   do! expectation_values :=
     estimator self (backend self) circuit (target_operator self)
               (cf_n_samples self) (epsilon self) (delta self) in
   mreturn (MkValueEstimate (np_sum (values expectation_values)) None))%M.
End CostFunction.

(** ** Gate records: [Gate], [to_dict], [save], [load] *)

Section GateSerialization.
(** Symbolic matrix entries, their text form [str(element)] and
    [sympy.sympify]. *)
Context {Expr : Type}.
Variable expr_to_string : Expr -> string.
Variable sympify : string -> result Expr.

(** [SCHEMA_VERSION] of [zquantum.core.utils]. *)
Variable SCHEMA_VERSION : string.

(** Modelled from the spec: the [Gate] class of [circuit/gate/_gate.py]
    (absent from the sources; only its tests are present): a symbolic
    matrix, as its rows, acting on an ordered tuple of qubit indices. *)
Record Gate : Type := MkGateValue {
  matrix : list (list Expr);
  qubits : list nat
}.

(** Modelled from the spec: the construction invariants of [Gate], which
    is absent from the sources: the matrix is square with side
    [2 ^ len(qubits)] and the qubit indices are pairwise distinct. *)
Definition valid_gate (m : list (list Expr)) (qs : list nat) : Prop :=
  length m = (2 ^ length qs)%nat
  ∧ Forall (fun row => length row = (2 ^ length qs)%nat) m
  ∧ NoDup qs.

(** Modelled from the spec: [Gate.__init__], absent from the sources:
    validates and fails with an assertion error, producing no object. *)
Definition Gate_init (m : list (list Expr)) (qs : list nat) : result Gate :=
  if decide (valid_gate m qs) then Ok (MkGateValue m qs) else Raise AssertionError.

(** Modelled from the spec: the record [{schema, qubits, matrix}] that
    [Gate.to_dict] (absent from the sources) produces.  In the serializable
    form [qubits] is a plain list and each matrix row is [{"elements":
    [expr-string, ...]}]; in the native form [qubits] stays a tuple and the
    matrix stays symbolic. *)
Inductive QubitsField : Type :=
  | QubitsTuple (qs : list nat)
  | QubitsList (qs : list nat).

Inductive MatrixField : Type :=
  | NativeMatrix (m : list (list Expr))
  | ElementRows (rows : list (list string)).

Record GateDict : Type := MkGateDict {
  dict_schema : string;
  dict_qubits : QubitsField;
  dict_matrix : MatrixField
}.

(** Modelled from the spec: [Gate.to_dict(serializable)], absent from the
    sources. *)
Definition to_dict (self : Gate) (serializable : bool) : GateDict :=
  if serializable then
    MkGateDict (SCHEMA_VERSION ++ "-gate")
               (QubitsList (qubits self))
               (ElementRows (map (map expr_to_string) (matrix self)))
  else
    MkGateDict (SCHEMA_VERSION ++ "-gate")
               (QubitsTuple (qubits self))
               (NativeMatrix (matrix self)).

(** The text of a file, [json.dumps] and [json.loads]; files by path. *)
Context {Text : Type}.
Variable json_dumps : GateDict -> Text.
Variable json_loads : Text -> result GateDict.

Definition Files : Type := gmap string Text.

(** Modelled from the spec: [Gate.save(filename)], absent from the sources:
    writes the serializable record to the file. *)
Definition save (self : Gate) (filename : string) (files : Files) : Files :=
  <[filename := json_dumps (to_dict self true)]> files.

(** [sympy.sympify] over the elements of a row, left to right. *)
Definition sympify_row (row : list string) : result (list Expr) :=
  for_each row (fun acc element =>
                  (try! e := sympify element in Ok (acc ++ [e]))%res) [].

(** Modelled from the spec: [Gate.load(data)], absent from the sources:
    [data] is a file path or an already-parsed record; the gate is rebuilt
    through the constructor. *)
Definition load_dict (data : GateDict) : result Gate :=
  let qs := match dict_qubits data with QubitsTuple qs | QubitsList qs => qs end in
  (try! m := match dict_matrix data with
             | NativeMatrix m => Ok m
             | ElementRows rows =>
                 for_each rows (fun acc row =>
                                  (try! r := sympify_row row in Ok (acc ++ [r]))) []
             end in
   Gate_init m qs)%res.

Definition load (data : string + GateDict) (files : Files) : result Gate :=
  match data with
  | inl path =>
      match files !! path with
      | None => Raise (OSError path)
      | Some text => (try! record := json_loads text in load_dict record)%res
      end
  | inr record => load_dict record
  end.
End GateSerialization.

Arguments Gate Expr : clear implicits.
Arguments MatrixField Expr : clear implicits.
Arguments GateDict Expr : clear implicits.
Arguments Files Text : clear implicits.

(** ** Vocabulary of the statements *)

Section Vocabulary.
Context `{External}.

(** The basis rotation a factor asks for: rotate about Y by -pi/2 for an
    X factor, about X by +pi/2 for a Y factor, nothing otherwise. *)
Definition rotation_of (factor : Factor) : list GateInstr :=
  match factor.2 with
  | "X" => [RY neg_half_pi factor.1]
  | "Y" => [RX half_pi factor.1]
  | _ => []
  end.

(** The product of Z over a list of qubit indices. *)
Definition Z_product (indices : list nat) : IsingOperator :=
  foldr (fun q rest => ising_mul (ising_Z q) rest) ising_one indices.

(** The sum over weighted terms of coefficient times all-Z product. *)
Definition frame_sum (weighted_terms : list (Term * Coef)) : IsingOperator :=
  foldr (fun tc rest => ising_add (ising_scale (Z_product (tc.1).*1) tc.2) rest)
        ising_zero weighted_terms.

(** Two terms assign different letters to one qubit. *)
Definition terms_conflict (t1 t2 : Term) : Prop :=
  ∃ q b1 b2, (q, b1) ∈ t1 ∧ (q, b2) ∈ t2 ∧ b1 ≠ b2.

(** The group contains two terms that conflict. *)
Definition has_conflicting_terms (qubit_operator : QubitOperator Coef) : Prop :=
  ∃ t1 t2, t1 ∈ term_keys qubit_operator ∧ t2 ∈ term_keys qubit_operator
           ∧ t1 ≠ t2 ∧ terms_conflict t1 t2.

(** All terms of the group agree on the letter of every shared qubit. *)
Definition comeasurable (qubit_operator : QubitOperator Coef) : Prop :=
  ∀ t1 t2 q b1 b2,
    t1 ∈ term_keys qubit_operator → t2 ∈ term_keys qubit_operator →
    (q, b1) ∈ t1 → (q, b2) ∈ t2 → b1 = b2.

(** What the [QubitOperator] class maintains: the keys of [terms] are
    distinct, and a term has at most one factor per qubit. *)
Definition wf_operator (qubit_operator : QubitOperator Coef) : Prop :=
  NoDup (term_keys qubit_operator)
  ∧ Forall (fun term : Term => NoDup term.*1) (term_keys qubit_operator).

(** All the factors of the group's terms. *)
Definition group_factors (qubit_operator : QubitOperator Coef) : list Factor :=
  concat (term_keys qubit_operator).

(** The parameters the cost function evaluates at: the input vector when
    nothing is fixed, otherwise the fixed and the input vector combined. *)
Definition effective_parameters (fixed : option ParamVector)
    (parameters : ParamVector) : ParamVector :=
  match fixed with
  | None => parameters
  | Some fixed => combine_ansatz_params fixed parameters
  end.

(** No two factors of the list give one qubit two letters. *)
Definition consistent (factors : list Factor) : Prop :=
  ∀ f1 f2, f1 ∈ factors → f2 ∈ factors → f1.1 = f2.1 → f1.2 = f2.2.

Definition inconsistent (factors : list Factor) : Prop :=
  ∃ f1 f2, f1 ∈ factors ∧ f2 ∈ factors ∧ f1.1 = f2.1 ∧ f1.2 ≠ f2.2.

(** The context after the factors were visited: each new factor appended
    once, in order of first appearance. *)
Fixpoint extend_context (context : list Factor) (factors : list Factor)
    : list Factor :=
  match factors with
  | [] => context
  | f :: rest =>
      extend_context (if decide (f ∈ context) then context else context ++ [f]) rest
  end.

(** The gates of a circuit that act on a qubit. *)
Definition gates_on (q : nat) (circuit : list GateInstr) : list GateInstr :=
  filter (fun g => q ∈ gate_qubits g) circuit.
End Vocabulary.

(** ** A concrete instance of the collaborators

    Operators are finite sums of weighted products of Z factors over integer
    coefficients; numbers are integers; a measurement result already holds
    its expectation values. *)

Module Concrete.
Definition Poly : Type := list (list nat * Z).

(** The product of two weighted monomials. *)
Definition times (x y : list nat * Z) : list nat * Z := (x.1 ++ y.1, x.2 * y.2).

Definition poly_mul (a b : Poly) : Poly :=
  flat_map (fun x => map (times x) b) a.

Definition poly_scale (a : Poly) (c : Z) : Poly :=
  map (fun '(t, k) => (t, k * c)) a.

(** The finest grouping: every term is a group of its own. *)
Definition singleton_groups (qubit_operator : QubitOperator Z) (_ : option bool)
    : result (list (QubitOperator Z)) :=
  Ok (map (fun tc => MkQubitOperator [tc]) (terms qubit_operator)).

#[export] Instance external : External := {|
  Coef := Z;
  IsingOperator := Poly;
  ising_zero := [];
  ising_one := [([], 1)];
  ising_Z := fun q => [([q], 1)];
  ising_mul := poly_mul;
  ising_add := fun a b => a ++ b;
  ising_scale := poly_scale;
  group_comeasureable_terms_greedy := singleton_groups;
  Float := Z;
  np_sum := fun l => foldr Z.add 0 l;
  Measurements := list Z;
  ExpectationValues := list Z;
  values := fun ev => ev;
  get_expectation_values := fun m _ => Ok m;
  expectation_values_to_real := fun ev => Ok ev;
  concatenate_expectation_values := fun evs => Ok (concat evs);
  ParamVector := list Z;
  combine_ansatz_params := fun a b => a ++ b;
  Device := unit
|}.

(** A device that fails every batched run, leaving its fields as they are. *)
Definition failing_backend : Backend :=
  PlainBackend
    (MkQuantumBackend
       (fun _ st => (Raise (ExternalError "device unreachable"), st))).

(** A device that answers every circuit with the same single value. *)
Definition constant_backend (v : Z) : Backend :=
  PlainBackend
    (MkQuantumBackend (fun circuits st => (Ok (map (fun _ => [v]) circuits), st))).

(** A simulator whose exact evaluation returns the coefficients' sum. *)
Definition coefficient_simulator : QuantumSimulator :=
  MkQuantumSimulator
    (MkQuantumBackend (fun circuits st => (Ok (map (fun _ => [0]) circuits), st)))
    (fun _ operator st => (Ok [foldr Z.add 0 ((terms operator).*2)], st)).

Definition initial_world (n : option Z) : World :=
  MkWorld (MkBackendState n tt) [].

(** X0 Y1 Z2. *)
Definition example_term : Term := [(0%nat, "X"); (1%nat, "Y"); (2%nat, "Z")].

(** X0 + 3 X0 Y1: two terms that share qubit 0 and agree on it. *)
Definition example_group : QubitOperator Coef :=
  MkQubitOperator [([(0%nat, "X")], 1); ([(0%nat, "X"); (1%nat, "Y")], 3)].

(** X0 + 3 Y0 Y1: two terms that give qubit 0 different letters. *)
Definition conflicting_group : QubitOperator Coef :=
  MkQubitOperator [([(0%nat, "X")], 1); ([(0%nat, "Y"); (1%nat, "Y")], 3)].

(** An ansatz of one rotation, whatever the parameters. *)
Definition example_ansatz : Ansatz := MkAnsatz (fun _ => Ok [RX half_pi 0]).

(** A cost function over the simulator, two parameters fixed. *)
Definition example_cost_function : AnsatzBasedCostFunction :=
  AnsatzBasedCostFunction_init example_group example_ansatz
    (SimulatorBackend coefficient_simulator) (Some ExactEstimator)
    None None None (Some [1; 2]).

(** The identity on qubit 0, entries in their text form, and the JSON text
    of a record taken to be the record. *)
Definition identity_gate : Gate string := MkGateValue [["1"; "0"]; ["0"; "1"]] [0%nat].
End Concrete.

(** ** Vocabulary of the further properties *)

Section FurtherVocabulary.
Context `{External}.

(** The factors of a term that ask for a rotation. *)
Definition rotated_factors (term : list Factor) : list Factor :=
  filter (fun factor : Factor => factor.2 = "X" ∨ factor.2 = "Y") term.

(** The first part of [BasicEstimator.get_estimated_expectation_values], up
    to the batch: the grouping and the loop that builds the frames. *)
Definition build_frames (decomposition_method : string)
    (target_operator : QubitOperator Coef) (circuit : Circuit)
    : result (list Circuit * list IsingOperator) :=
  (try! decomposition_function := get_decomposition_function decomposition_method in
   try! groups := decomposition_function target_operator in
   for_each groups (append_frame circuit) ([], []))%res.

(** Its last part, after the batch: the loop over the zipped frame operators
    and measurements, the concatenation and the final conversion. *)
Definition aggregate (frame_operators : list IsingOperator)
    (measurements_set : list Measurements) : result ExpectationValues :=
  (try! expectation_values_set :=
     for_each (zip frame_operators measurements_set) append_expectation_values [] in
   try! concatenated := concatenate_expectation_values expectation_values_set in
   expectation_values_to_real concatenated)%res.

(** The accesses to the backend that one call of the basic estimator may add
    to the trace: none; the run alone; or, around the run, two reads and the
    overriding write, followed by the restoring write or not. *)
Definition basic_estimator_accesses (n_samples : option Z) (saved : option Z)
    (accesses : list Event) : Prop :=
  accesses = []
  ∨ ∃ frame_circuits,
      match n_samples with
      | None => accesses = [CallRunCircuitsetAndMeasure frame_circuits]
      | Some n =>
          accesses = [ReadNSamples; ReadNSamples; WriteNSamples (Some n);
                      CallRunCircuitsetAndMeasure frame_circuits]
          ∨ accesses = [ReadNSamples; ReadNSamples; WriteNSamples (Some n);
                        CallRunCircuitsetAndMeasure frame_circuits;
                        WriteNSamples saved]
      end.
End FurtherVocabulary.

(** ** Further concrete collaborators *)

Module Scenarios.
Import Concrete.

(** An ansatz that rejects every parameter vector. *)
Definition failing_ansatz : Ansatz :=
  MkAnsatz (fun _ => Raise (ExternalError "wrong number of parameters")).

(** A device that returns one measurement more than it was given circuits. *)
Definition generous_backend (v : Z) : Backend :=
  PlainBackend
    (MkQuantumBackend
       (fun circuits st => (Ok (map (fun _ => [v]) circuits ++ [[v + 1]]), st))).

(** A device that answers and sets its own sample count to 1. *)
Definition meddling_backend (v : Z) : Backend :=
  PlainBackend
    (MkQuantumBackend
       (fun circuits st =>
          (Ok (map (fun _ => [v]) circuits), MkBackendState (Some 1) (device st)))).

(** X0 Y0: one term with two letters on qubit 0. *)
Definition self_conflicting_group : QubitOperator Coef :=
  MkQubitOperator [([(0%nat, "X"); (0%nat, "Y")], 1)].

(** The example group with other coefficients. *)
Definition reweighted_group : QubitOperator Coef :=
  MkQubitOperator [([(0%nat, "X")], 5); ([(0%nat, "X"); (1%nat, "Y")], -2)].

(** Cost functions: default estimator on a device; failing ansatz; exact
    estimator on a device that is no simulator. *)
Definition default_cost_function : AnsatzBasedCostFunction :=
  AnsatzBasedCostFunction_init example_group example_ansatz (meddling_backend 7)
    None (Some 10) None None None.

Definition unbuildable_cost_function : AnsatzBasedCostFunction :=
  AnsatzBasedCostFunction_init example_group failing_ansatz (constant_backend 7)
    None (Some 10) None None None.

Definition exact_on_device_cost_function : AnsatzBasedCostFunction :=
  AnsatzBasedCostFunction_init example_group example_ansatz (constant_backend 7)
    (Some ExactEstimator) None None None None.
End Scenarios.

(** * Properties *)

(** ** Decomposition-method lookup *)

Section DecompositionFacts.
Context `{External}.

Lemma DECOMPOSITION_METHODS_lookup_None (decomposition_method : string) :
  DECOMPOSITION_METHODS !! decomposition_method = None
  ↔ decomposition_method ≠ "greedy" ∧ decomposition_method ≠ "greedy-sorted".
Proof.
  unfold DECOMPOSITION_METHODS.
  etrans; [apply lookup_insert_None|]. split.
  - intros [Hl Hne]. apply lookup_singleton_None in Hl. split; congruence.
  - intros [Hg Hs]. split; [apply lookup_singleton_None|]; congruence.
Qed.

Lemma get_decomposition_function_unknown (decomposition_method : string) :
  decomposition_method ≠ "greedy" → decomposition_method ≠ "greedy-sorted" →
  get_decomposition_function decomposition_method
  = Raise (ValueError (unrecognized_method_message decomposition_method)).
Proof.
  intros Hg Hs. unfold get_decomposition_function.
  by rewrite (proj2 (DECOMPOSITION_METHODS_lookup_None _) (conj Hg Hs)).
Qed.

(** C6: [get_decomposition_function] raises the unrecognized-method
    [ValueError] exactly when the name is neither "greedy" nor
    "greedy-sorted"; for "greedy" it returns the greedy grouping called
    without [sort_terms], for "greedy-sorted" the greedy grouping called
    with [sort_terms = True]. *)
Theorem get_decomposition_function_known_methods (decomposition_method : string) :
  ((∃ e, get_decomposition_function decomposition_method = Raise e)
   ↔ decomposition_method ≠ "greedy" ∧ decomposition_method ≠ "greedy-sorted")
  ∧ (get_decomposition_function decomposition_method
     = Raise (ValueError (unrecognized_method_message decomposition_method))
     ↔ decomposition_method ≠ "greedy" ∧ decomposition_method ≠ "greedy-sorted")
  ∧ get_decomposition_function "greedy"
    = Ok (fun qubit_operator => group_comeasureable_terms_greedy qubit_operator None)
  ∧ get_decomposition_function "greedy-sorted"
    = Ok (fun qubit_operator =>
            group_comeasureable_terms_greedy qubit_operator (Some true)).
Proof.
  assert (Hraise : ∀ e, get_decomposition_function decomposition_method = Raise e →
                        decomposition_method ≠ "greedy"
                        ∧ decomposition_method ≠ "greedy-sorted").
  { intros e. unfold get_decomposition_function.
    destruct (DECOMPOSITION_METHODS !! decomposition_method) eqn:Hlk; [discriminate|].
    intros _. by apply DECOMPOSITION_METHODS_lookup_None. }
  split; [|split; [|split; reflexivity]].
  - split; [intros [e He]; by eapply Hraise|].
    intros [Hg Hs]. eexists. by apply get_decomposition_function_unknown.
  - split; [apply Hraise|].
    intros [Hg Hs]. by apply get_decomposition_function_unknown.
Qed.
End DecompositionFacts.

(** ** Context selection for a single term *)

Section ContextSelectionTerm.
Context `{External}.

Lemma rotation_of_cases (factor : Factor) :
  rotation_of factor
  = if decide (factor.2 = "X") then [RY neg_half_pi factor.1]
    else if decide (factor.2 = "Y") then [RX half_pi factor.1]
    else [].
Proof.
  destruct factor as [q b]. unfold rotation_of. simpl.
  destruct b as [|[[] [] [] [] [] [] [] []] [|? ?]];
    repeat case_decide; try reflexivity; try discriminate; congruence.
Qed.

Lemma append_rotation_app (circuit : Circuit) (factor : Factor) :
  append_rotation circuit factor = circuit ++ rotation_of factor.
Proof.
  rewrite rotation_of_cases. unfold append_rotation, Circuit_add, Circuit_of_gate.
  repeat case_decide; try reflexivity. by rewrite app_nil_r.
Qed.

Lemma fold_append_rotation (factors : list Factor) (circuit : Circuit) :
  fold_left append_rotation factors circuit = circuit ++ flat_map rotation_of factors.
Proof.
  revert circuit. induction factors as [|f factors IH]; intros circuit; simpl.
  - by rewrite app_nil_r.
  - by rewrite IH, append_rotation_app, <- app_assoc.
Qed.

(** The loop of [get_context_selection_circuit], from any loop state. *)
Lemma selection_loop (term : Term) (circuit : Circuit) (operator : IsingOperator) :
  fold_left
    (fun '(context_selection_circuit, operator) factor =>
       (append_rotation context_selection_circuit factor,
        ising_mul operator (ising_Z factor.1)))
    term (circuit, operator)
  = (circuit ++ flat_map rotation_of term,
     fold_left (fun operator factor => ising_mul operator (ising_Z factor.1))
               term operator).
Proof.
  revert circuit operator. induction term as [|f term IH]; intros circuit operator; simpl.
  - by rewrite app_nil_r.
  - by rewrite IH, append_rotation_app, <- app_assoc.
Qed.

Context `{!IsingLaws}.

(** The running product of the loop is the all-Z product of the qubits
    seen, multiplied onto the starting value. *)
Lemma fold_mul_Z_product (term : Term) (operator : IsingOperator) :
  fold_left (fun operator factor => ising_mul operator (ising_Z factor.1)) term operator
  = ising_mul operator (Z_product term.*1).
Proof.
  revert operator. induction term as [|f term IH]; intros operator; simpl.
  - by rewrite ising_mul_1_r.
  - by rewrite IH, ising_mul_assoc.
Qed.

(** C3: for every Pauli term, the circuit holds, in factor order, one
    RY(-pi/2) on the qubit of each X factor, one RX(+pi/2) on the qubit of
    each Y factor and nothing for a Z factor, and the frame operator is the
    product of Z over the term's qubits; for the term X on qubit 0 the
    circuit is the single gate RY(-pi/2) on qubit 0 and the frame operator
    is Z on qubit 0. *)
Theorem get_context_selection_circuit_spec (term : Term) :
  get_context_selection_circuit term = (flat_map rotation_of term, Z_product term.*1)
  ∧ (∀ q : nat, rotation_of (q, "X") = [RY neg_half_pi q]
                ∧ rotation_of (q, "Y") = [RX half_pi q]
                ∧ rotation_of (q, "Z") = [])
  ∧ get_context_selection_circuit [(0%nat, "X")] = ([RY neg_half_pi 0], ising_Z 0).
Proof.
  assert (Hgen : ∀ t, get_context_selection_circuit t
                      = (flat_map rotation_of t, Z_product t.*1)).
  { intros t. unfold get_context_selection_circuit.
    by rewrite selection_loop, fold_mul_Z_product, ising_mul_1_l. }
  split; [apply Hgen|]. split; [by intros q|].
  rewrite Hgen. simpl. by rewrite ising_mul_1_r.
Qed.
End ContextSelectionTerm.

(** ** Context selection for a group of terms *)

Section ContextSelectionGroup.
Context `{External}.

Lemma consistent_subseteq (l1 l2 : list Factor) :
  l1 ⊆ l2 → consistent l2 → consistent l1.
Proof. intros Hsub Hc f1 f2 H1 H2. apply Hc; by apply Hsub. Qed.

Lemma inconsistent_subseteq (l1 l2 : list Factor) :
  l1 ⊆ l2 → inconsistent l1 → inconsistent l2.
Proof.
  intros Hsub (f1 & f2 & H1 & H2 & Hq & Hb).
  exists f1, f2. repeat split; try done; by apply Hsub.
Qed.

Lemma consistent_not_inconsistent (l : list Factor) :
  consistent l → ¬ inconsistent l.
Proof. intros Hc (f1 & f2 & H1 & H2 & Hq & Hb). apply Hb. by apply Hc. Qed.

Lemma elem_of_extend_context (f : Factor) (factors context : list Factor) :
  f ∈ extend_context context factors ↔ f ∈ context ∨ f ∈ factors.
Proof.
  revert context. induction factors as [|g factors IH]; intros context; simpl.
  - rewrite elem_of_nil. tauto.
  - rewrite IH, elem_of_cons. case_decide as Hin.
    + split; [tauto|]. intros [?|[->|?]]; tauto.
    + rewrite elem_of_app, list_elem_of_singleton. tauto.
Qed.

Lemma extend_context_app (l1 l2 context : list Factor) :
  extend_context context (l1 ++ l2) = extend_context (extend_context context l1) l2.
Proof. revert context. induction l1 as [|f l1 IH]; intros context; simpl; [done|apply IH]. Qed.

Lemma NoDup_extend_context (factors context : list Factor) :
  NoDup context → NoDup (extend_context context factors).
Proof.
  revert context. induction factors as [|f factors IH]; intros context Hnd; simpl; [done|].
  apply IH. case_decide as Hin; [done|].
  apply NoDup_app. repeat split; [done| |apply NoDup_singleton].
  intros x Hx Hx'. apply list_elem_of_singleton in Hx'. by subst.
Qed.

(** The innermost loop: it raises exactly when some factor of the context
    has the qubit of [factor] with another letter. *)
Lemma check_against_context_cases (context : list Factor) (factor : Factor) :
  (check_against_context context factor = Ok tt
   ∧ ∀ e, e ∈ context → e.1 = factor.1 → e.2 = factor.2)
  ∨ (check_against_context context factor = Raise not_comeasurable
     ∧ ∃ e, e ∈ context ∧ e.1 = factor.1 ∧ e.2 ≠ factor.2).
Proof.
  unfold check_against_context.
  induction context as [|e context IH]; simpl.
  - left. split; [done|]. intros e He. by apply elem_of_nil in He.
  - destruct (bool_decide (e.1 = factor.1)) eqn:Hq;
      [destruct (bool_decide (e.2 = factor.2)) eqn:Hb|]; simpl.
    + destruct IH as [[-> IH]|[-> (e' & He' & IH)]].
      * left. split; [done|]. intros e' [->|He']%elem_of_cons Hq'.
        -- by apply bool_decide_eq_true in Hb.
        -- by apply IH.
      * right. split; [done|]. exists e'. split; [by apply elem_of_cons; right|done].
    + right. split; [done|]. exists e. split; [by apply elem_of_cons; left|].
      split; [by apply bool_decide_eq_true in Hq|by apply bool_decide_eq_false in Hb].
    + destruct IH as [[-> IH]|[-> (e' & He' & IH)]].
      * left. split; [done|]. intros e' [->|He']%elem_of_cons Hq'.
        -- by apply bool_decide_eq_false in Hq.
        -- by apply IH.
      * right. split; [done|]. exists e'. split; [by apply elem_of_cons; right|done].
Qed.

Lemma visit_factor_cases (context : list Factor) (term_operator : IsingOperator)
    (factor : Factor) :
  consistent context →
  (visit_factor (context, term_operator) factor
   = Ok (extend_context context [factor], ising_mul term_operator (ising_Z factor.1))
   ∧ consistent (context ++ [factor]))
  ∨ (visit_factor (context, term_operator) factor = Raise not_comeasurable
     ∧ inconsistent (context ++ [factor])).
Proof.
  intros Hc. unfold visit_factor.
  destruct (check_against_context_cases context factor)
    as [[-> Hok]|[-> (e & He & Hq & Hb)]]; simpl.
  - left. split; [done|].
    intros f1 f2 [H1|H1%list_elem_of_singleton]%elem_of_app
                 [H2|H2%list_elem_of_singleton]%elem_of_app Hq; subst.
    + by apply Hc.
    + by apply Hok.
    + symmetry. by apply Hok.
    + done.
  - right. split; [done|]. exists e, factor.
    repeat split; try done; apply elem_of_app; [by left|right; by apply list_elem_of_singleton].
Qed.

(** The loop over the factors of one term. *)
Lemma visit_factors_cases (term : Term) (context : list Factor)
    (term_operator : IsingOperator) :
  consistent context →
  (for_each term visit_factor (context, term_operator)
   = Ok (extend_context context term,
         fold_left (fun operator factor => ising_mul operator (ising_Z factor.1))
                   term term_operator)
   ∧ consistent (context ++ term))
  ∨ (for_each term visit_factor (context, term_operator) = Raise not_comeasurable
     ∧ inconsistent (context ++ term)).
Proof.
  revert context term_operator.
  induction term as [|f term IH]; intros context term_operator Hc; cbn [for_each fold_left].
  - left. by rewrite app_nil_r.
  - destruct (visit_factor_cases context term_operator f Hc) as [[-> Hc1]|[-> Hi]];
      cbn [rbind].
    + assert (Hsame : ∀ x, x ∈ extend_context context [f] ++ term ↔ x ∈ context ++ f :: term).
      { intros x. rewrite !elem_of_app, elem_of_extend_context, !elem_of_cons,
          elem_of_nil. tauto. }
      destruct (IH (extend_context context [f]) (ising_mul term_operator (ising_Z f.1)))
        as [[-> Hc2]|[-> Hi2]].
      * eapply consistent_subseteq; [|exact Hc1].
        intros x. rewrite elem_of_extend_context. rewrite elem_of_app. tauto.
      * left. split; [done|].
        eapply consistent_subseteq; [|exact Hc2]. intros x. apply Hsame.
      * right. split; [done|].
        eapply inconsistent_subseteq; [|exact Hi2]. intros x. apply Hsame.
    + right. split; [done|].
      eapply inconsistent_subseteq; [|exact Hi].
      intros x. rewrite !elem_of_app, !elem_of_cons, elem_of_nil. tauto.
Qed.

Lemma dict_get_NoDup (d : list (Term * Coef)) (term : Term) (coefficient : Coef) :
  NoDup d.*1 → (term, coefficient) ∈ d → dict_get d term = Ok coefficient.
Proof.
  induction d as [|[k v] d IH]; simpl; intros Hnd Hin.
  - by apply elem_of_nil in Hin.
  - apply NoDup_cons in Hnd as [Hk Hnd].
    apply elem_of_cons in Hin as [Heq|Hin].
    + injection Heq as -> ->. by rewrite decide_True.
    + rewrite decide_False; [by apply IH|].
      intros ->. apply Hk. apply list_elem_of_fmap. by exists (term, coefficient).
Qed.

(** The loop over the terms, on any part of the dict whose lookups
    succeed. *)
Lemma visit_terms_cases (qubit_operator : QubitOperator Coef)
    (weighted_terms : list (Term * Coef)) (context : list Factor)
    (operator : IsingOperator) :
  Forall (fun tc => dict_get (terms qubit_operator) tc.1 = Ok tc.2) weighted_terms →
  consistent context →
  (for_each weighted_terms.*1 (visit_term qubit_operator) (context, operator)
   = Ok (extend_context context (concat weighted_terms.*1),
         fold_left
           (fun operator tc =>
              ising_add operator
                (ising_scale
                   (fold_left (fun o factor => ising_mul o (ising_Z factor.1))
                              tc.1 ising_one)
                   tc.2))
           weighted_terms operator)
   ∧ consistent (context ++ concat weighted_terms.*1))
  ∨ (for_each weighted_terms.*1 (visit_term qubit_operator) (context, operator)
     = Raise not_comeasurable
     ∧ inconsistent (context ++ concat weighted_terms.*1)).
Proof.
  revert context operator.
  induction weighted_terms as [|[t c] wts IH]; intros context operator Hget Hc;
    cbn [for_each fold_left fmap list_fmap concat fst snd].
  - left. by rewrite app_nil_r.
  - apply Forall_cons in Hget as [Ht Hget]. cbn [fst snd] in Ht.
    unfold visit_term at 1 3.
    destruct (visit_factors_cases t context ising_one Hc) as [[-> Hc1]|[-> Hi]];
      cbn [rbind].
    + rewrite Ht. cbn [rbind].
      assert (Hsame : ∀ x, x ∈ extend_context context t ++ concat wts.*1
                           ↔ x ∈ context ++ t ++ concat wts.*1).
      { intros x. rewrite !elem_of_app, elem_of_extend_context. tauto. }
      edestruct (IH (extend_context context t)) as [[-> Hc2]|[-> Hi2]]; [done| |..].
      * eapply consistent_subseteq; [|exact Hc1].
        intros x. rewrite elem_of_extend_context, elem_of_app. tauto.
      * left. rewrite extend_context_app. split; [done|].
        eapply consistent_subseteq; [|exact Hc2]. intros x. apply Hsame.
      * right. split; [done|].
        eapply inconsistent_subseteq; [|exact Hi2]. intros x. apply Hsame.
    + right. split; [done|].
      eapply inconsistent_subseteq; [|exact Hi].
      intros x. rewrite !elem_of_app. tauto.
Qed.

Lemma elem_of_concat {A} (x : A) (ls : list (list A)) :
  x ∈ concat ls ↔ ∃ l, l ∈ ls ∧ x ∈ l.
Proof.
  rewrite list_elem_of_In, in_concat.
  split; intros (l & Hl & Hx); exists l; by rewrite ?list_elem_of_In in *.
Qed.

Lemma dict_get_terms (qubit_operator : QubitOperator Coef) :
  NoDup (term_keys qubit_operator) →
  Forall (fun tc => dict_get (terms qubit_operator) tc.1 = Ok tc.2)
         (terms qubit_operator).
Proof.
  intros Hnd. apply Forall_forall. intros [t c] Hin. by apply dict_get_NoDup.
Qed.

(** The whole function, by cases on the factors of the group. *)
Lemma group_cases (qubit_operator : QubitOperator Coef) :
  NoDup (term_keys qubit_operator) →
  (get_context_selection_circuit_for_group qubit_operator
   = Ok (flat_map rotation_of (extend_context [] (group_factors qubit_operator)),
         fold_left
           (fun operator tc =>
              ising_add operator
                (ising_scale
                   (fold_left (fun o factor => ising_mul o (ising_Z factor.1))
                              tc.1 ising_one)
                   tc.2))
           (terms qubit_operator) ising_zero)
   ∧ consistent (group_factors qubit_operator))
  ∨ (get_context_selection_circuit_for_group qubit_operator = Raise not_comeasurable
     ∧ inconsistent (group_factors qubit_operator)).
Proof.
  intros Hnd. unfold get_context_selection_circuit_for_group, group_factors, term_keys.
  destruct (visit_terms_cases qubit_operator (terms qubit_operator) [] ising_zero)
    as [[-> Hc]|[-> Hi]]; cbn [rbind].
  - by apply dict_get_terms.
  - intros f1 f2 H1. by apply elem_of_nil in H1.
  - left. by rewrite fold_append_rotation.
  - by right.
Qed.

Lemma consistent_group_factors (qubit_operator : QubitOperator Coef) :
  consistent (group_factors qubit_operator) ↔ comeasurable qubit_operator.
Proof.
  unfold consistent, comeasurable, group_factors. split.
  - intros Hc t1 t2 q b1 b2 Ht1 Ht2 H1 H2.
    apply (Hc (q, b1) (q, b2)); [apply elem_of_concat; eauto..|done].
  - intros Hc [q1 b1] [q2 b2] (t1 & Ht1 & H1)%elem_of_concat
           (t2 & Ht2 & H2)%elem_of_concat Hq. simpl in *. subst q2.
    by eapply (Hc t1 t2).
Qed.

Lemma fst_injective_NoDup (term : Term) (f1 f2 : Factor) :
  NoDup term.*1 → f1 ∈ term → f2 ∈ term → f1.1 = f2.1 → f1 = f2.
Proof.
  induction term as [|f term IH]; simpl; intros Hnd H1 H2 Hq.
  - by apply elem_of_nil in H1.
  - apply NoDup_cons in Hnd as [Hf Hnd].
    apply elem_of_cons in H1 as [->|H1]; apply elem_of_cons in H2 as [->|H2].
    + done.
    + exfalso. apply Hf. rewrite Hq. apply list_elem_of_fmap. by exists f2.
    + exfalso. apply Hf. rewrite <- Hq. apply list_elem_of_fmap. by exists f1.
    + by apply IH.
Qed.

Lemma inconsistent_group_factors (qubit_operator : QubitOperator Coef) :
  wf_operator qubit_operator →
  inconsistent (group_factors qubit_operator) ↔ has_conflicting_terms qubit_operator.
Proof.
  intros [_ Hwf]. unfold inconsistent, has_conflicting_terms, group_factors. split.
  - intros ([q1 b1] & [q2 b2] & (t1 & Ht1 & H1)%elem_of_concat
            & (t2 & Ht2 & H2)%elem_of_concat & Hq & Hb).
    simpl in *. subst q2. exists t1, t2. repeat split; try done.
    + intros ->. apply Hb.
      rewrite Forall_forall in Hwf.
      by injection (fst_injective_NoDup t2 (q1, b1) (q1, b2) (Hwf _ Ht2) H1 H2 eq_refl).
    + by exists q1, b1, b2.
  - intros (t1 & t2 & Ht1 & Ht2 & _ & q & b1 & b2 & H1 & H2 & Hb).
    exists (q, b1), (q, b2). repeat split; try done; apply elem_of_concat; eauto.
Qed.

(** C2: on a well-formed operator, the not-co-measurable error is raised
    if and only if two terms of the group give one qubit different
    letters; when all terms agree on every shared qubit no error is raised
    and a (circuit, operator) pair is returned. *)
Theorem not_comeasurable_iff_conflict (qubit_operator : QubitOperator Coef) :
  wf_operator qubit_operator →
  (get_context_selection_circuit_for_group qubit_operator = Raise not_comeasurable
   ↔ has_conflicting_terms qubit_operator)
  ∧ ((∃ e, get_context_selection_circuit_for_group qubit_operator = Raise e)
     ↔ has_conflicting_terms qubit_operator)
  ∧ (comeasurable qubit_operator →
     ∃ circuit operator,
       get_context_selection_circuit_for_group qubit_operator = Ok (circuit, operator)).
Proof.
  intros Hwf. pose proof (inconsistent_group_factors _ Hwf) as Hiff.
  destruct (group_cases qubit_operator (proj1 Hwf)) as [[Heq Hc]|[Heq Hi]];
    rewrite Heq.
  - apply consistent_not_inconsistent in Hc as Hni.
    split; [|split].
    + split; [discriminate|]. intros Hconf. by apply Hiff in Hconf.
    + split; [by intros [e ?]|]. intros Hconf. by apply Hiff in Hconf.
    + intros _. eauto.
  - split; [|split].
    + split; [|done]. intros _. by apply Hiff.
    + split; [|eauto]. intros _. by apply Hiff.
    + intros Hco. apply consistent_group_factors in Hco.
      by apply consistent_not_inconsistent in Hco.
Qed.

Lemma elem_of_rotation_of (g : GateInstr) (factor : Factor) :
  g ∈ rotation_of factor
  ↔ (factor.2 = "X" ∧ g = RY neg_half_pi factor.1)
    ∨ (factor.2 = "Y" ∧ g = RX half_pi factor.1).
Proof.
  rewrite rotation_of_cases. repeat case_decide.
  - rewrite list_elem_of_singleton. split; [tauto|]. intros [[_ ->]|[HY _]]; [done|congruence].
  - rewrite list_elem_of_singleton. split; [tauto|]. intros [[HX _]|[_ ->]]; [congruence|done].
  - rewrite elem_of_nil. tauto.
Qed.

Lemma elem_of_flat_map_rotation (g : GateInstr) (factors : list Factor) :
  g ∈ flat_map rotation_of factors ↔ ∃ f, f ∈ factors ∧ g ∈ rotation_of f.
Proof.
  rewrite list_elem_of_In, in_flat_map.
  split; intros (f & Hf & Hg); exists f; by rewrite ?list_elem_of_In in *.
Qed.

Lemma gates_on_rotation_of (q : nat) (factor : Factor) :
  (length (gates_on q (rotation_of factor))
   ≤ length (filter (fun f : Factor => f.1 = q) [factor]))%nat.
Proof.
  unfold gates_on. rewrite rotation_of_cases.
  destruct (decide (factor.1 = q)) as [Heq|Hne].
  - rewrite (filter_cons_True (fun f : Factor => f.1 = q)) by done.
    etrans; [apply length_filter|]. repeat case_decide; simpl; lia.
  - rewrite (filter_cons_False (fun f : Factor => f.1 = q)) by done.
    assert (Hno : ∀ a name, filter (fun g => q ∈ gate_qubits g)
                                   [MkGate name [a] [factor.1]] = []).
    { intros a name. rewrite filter_cons_False; [done|]. simpl.
      rewrite list_elem_of_singleton. congruence. }
    unfold RX, RY. repeat case_decide; rewrite ?Hno, ?filter_nil; simpl; lia.
Qed.

Lemma gates_on_flat_map_rotation (q : nat) (factors : list Factor) :
  (length (gates_on q (flat_map rotation_of factors))
   ≤ length (filter (fun f : Factor => f.1 = q) factors))%nat.
Proof.
  induction factors as [|f factors IH]; [done|].
  change (f :: factors) with ([f] ++ factors) at 2.
  cbn [flat_map]. unfold gates_on in *.
  rewrite !filter_app, !length_app.
  pose proof (gates_on_rotation_of q f) as Hf. unfold gates_on in Hf. lia.
Qed.

Lemma filter_fst_NoDup (q : nat) (factors : list Factor) :
  NoDup factors.*1 → (length (filter (fun f : Factor => f.1 = q) factors) ≤ 1)%nat.
Proof.
  induction factors as [|f factors IH]; simpl; intros Hnd; [by apply Nat.le_0_l|].
  apply NoDup_cons in Hnd as [Hf Hnd]. rewrite filter_cons. case_decide as Heq.
  - assert (Hnone : filter (fun f : Factor => f.1 = q) factors = []).
    { destruct (filter (fun f : Factor => f.1 = q) factors) as [|f' l'] eqn:Hfl; [done|].
      assert (Hin : f' ∈ filter (fun f : Factor => f.1 = q) factors)
        by (rewrite Hfl; apply elem_of_cons; by left).
      apply list_elem_of_filter in Hin as [Hq Hf']. exfalso. apply Hf.
      rewrite Heq, <- Hq. apply list_elem_of_fmap. by exists f'. }
    by rewrite Hnone.
  - by apply IH.
Qed.

Lemma consistent_NoDup_fst (factors : list Factor) :
  NoDup factors → consistent factors → NoDup factors.*1.
Proof.
  intros Hnd Hc. apply NoDup_fmap_fst; [|done].
  intros q b1 b2 H1 H2. by apply (Hc (q, b1) (q, b2)).
Qed.

Context `{!IsingLaws}.

(** The running sum of the outer loop is the frame sum of the terms seen,
    added onto the starting value. *)
Lemma fold_add_frame_sum (weighted_terms : list (Term * Coef)) (operator : IsingOperator) :
  fold_left
    (fun operator tc =>
       ising_add operator
         (ising_scale
            (fold_left (fun o factor => ising_mul o (ising_Z factor.1)) tc.1 ising_one)
            tc.2))
    weighted_terms operator
  = ising_add operator (frame_sum weighted_terms).
Proof.
  revert operator. induction weighted_terms as [|[t c] wts IH]; intros operator; simpl.
  - by rewrite ising_add_0_r.
  - by rewrite IH, fold_mul_Z_product, ising_mul_1_l, ising_add_assoc.
Qed.

(** C4: for a co-measurable group, the circuit holds at most one gate per
    qubit, its gates are exactly RY(-pi/2) on q for each assignment (q, X)
    and RX(+pi/2) on q for each assignment (q, Y) of the group, and the
    frame operator is the sum over the terms of coefficient times the
    product of Z over the term's qubits. *)
Theorem group_circuit_and_frame_operator (qubit_operator : QubitOperator Coef) :
  wf_operator qubit_operator →
  comeasurable qubit_operator →
  ∃ circuit,
    get_context_selection_circuit_for_group qubit_operator
    = Ok (circuit, frame_sum (terms qubit_operator))
    ∧ (∀ q, (length (gates_on q circuit) ≤ 1)%nat)
    ∧ (∀ g, g ∈ circuit
            ↔ ∃ q, (g = RY neg_half_pi q ∧ (q, "X") ∈ group_factors qubit_operator)
                   ∨ (g = RX half_pi q ∧ (q, "Y") ∈ group_factors qubit_operator)).
Proof.
  intros Hwf Hco.
  destruct (group_cases qubit_operator (proj1 Hwf)) as [[Heq Hc]|[_ Hi]]; cycle 1.
  { apply consistent_group_factors, consistent_not_inconsistent in Hco. done. }
  set (context := extend_context [] (group_factors qubit_operator)) in *.
  assert (Helem : ∀ f, f ∈ context ↔ f ∈ group_factors qubit_operator).
  { intros f. unfold context. rewrite elem_of_extend_context, elem_of_nil. tauto. }
  exists (flat_map rotation_of context).
  rewrite Heq, fold_add_frame_sum, ising_add_0_l. split; [done|]. split.
  - intros q. etrans; [apply gates_on_flat_map_rotation|].
    apply filter_fst_NoDup, consistent_NoDup_fst.
    + apply NoDup_extend_context, NoDup_nil_2.
    + eapply consistent_subseteq; [|exact Hc]. intros f. apply Helem.
  - intros g. rewrite elem_of_flat_map_rotation. split.
    + intros ([q b] & Hf%Helem & Hg%elem_of_rotation_of). simpl in Hg. exists q.
      destruct Hg as [[-> ->]|[-> ->]]; [by left|by right].
    + intros (q & [[-> Hin]|[-> Hin]]).
      * exists (q, "X"). split; [by apply Helem|]. apply elem_of_rotation_of. by left.
      * exists (q, "Y"). split; [by apply Helem|]. apply elem_of_rotation_of. by right.
Qed.
End ContextSelectionGroup.

(** ** Estimators and the backend *)

Section EstimatorFacts.
Context `{External}.

(** C9: with an unknown decomposition-method name the call raises the
    unrecognized-method error and the world is the one it started in: no
    event is added to the trace (no read or write of [n_samples], no call
    of [run_circuitset_and_measure]) and the backend's state is unchanged. *)
Theorem unknown_method_raises_before_backend
    (backend : Backend) (circuit : Circuit) (target_operator : QubitOperator Coef)
    (n_samples : option Z) (epsilon delta : option Float)
    (decomposition_method : string) (w : World) :
  decomposition_method ≠ "greedy" →
  decomposition_method ≠ "greedy-sorted" →
  BasicEstimator_get_estimated_expectation_values
    backend circuit target_operator n_samples epsilon delta decomposition_method w
  = (Raise (ValueError (unrecognized_method_message decomposition_method)), w).
Proof.
  intros Hg Hs. unfold BasicEstimator_get_estimated_expectation_values, mbind', lift.
  by rewrite get_decomposition_function_unknown.
Qed.

(** C5: on a backend that is not a [QuantumSimulator] the exact estimator
    raises its [AttributeError] and touches nothing; on a simulator its
    result and its effect are those of the one call
    [backend.get_exact_expectation_values(circuit, target_operator)], the
    only event added to the trace. *)
Theorem ExactEstimator_delegates :
  (∀ b circuit (target_operator : QubitOperator Coef) n_samples epsilon delta w,
      ExactEstimator_get_estimated_expectation_values
        (PlainBackend b) circuit target_operator n_samples epsilon delta w
      = (Raise (AttributeError
                  "To use the ExactEstimator, the backend must be a QuantumSimulator."),
         w))
  ∧ (∀ s circuit (target_operator : QubitOperator Coef) n_samples epsilon delta w,
        ExactEstimator_get_estimated_expectation_values
          (SimulatorBackend s) circuit target_operator n_samples epsilon delta w
        = ((get_exact_expectation_values s circuit target_operator (backend_state w)).1,
           MkWorld
             (get_exact_expectation_values s circuit target_operator (backend_state w)).2
             (trace w ++ [CallGetExactExpectationValues circuit target_operator]))).
Proof.
  split; [done|]. intros s circuit target_operator n_samples epsilon delta w.
  unfold ExactEstimator_get_estimated_expectation_values,
    call_get_exact_expectation_values. simpl.
  by destruct (get_exact_expectation_values s circuit target_operator (backend_state w)).
Qed.

(** C10: the exact estimator ignores [n_samples], [epsilon] and [delta]:
    two calls that differ only in them are the same computation. *)
Theorem ExactEstimator_ignores_sampling_arguments
    (backend : Backend) (circuit : Circuit) (target_operator : QubitOperator Coef)
    (n_samples1 n_samples2 : option Z) (epsilon1 epsilon2 delta1 delta2 : option Float) :
  ExactEstimator_get_estimated_expectation_values
    backend circuit target_operator n_samples1 epsilon1 delta1
  = ExactEstimator_get_estimated_expectation_values
      backend circuit target_operator n_samples2 epsilon2 delta2.
Proof. reflexivity. Qed.

(** The scoped override of [BasicEstimator], on the path where the batched
    run returns: the run sees the given sample count, and the count is the
    saved one afterwards. *)
Lemma override_restores_when_run_returns
    (backend : Backend) (frame_circuits : list Circuit) (n : Z) (w : World)
    (measurements_set : list Measurements) (st : BackendState) :
  run_circuitset_and_measure (as_quantum_backend backend) frame_circuits
    (MkBackendState (Some n) (device (backend_state w)))
  = (Ok measurements_set, st) →
  (do! _ := read_n_samples in
   do! saved_n_samples := read_n_samples in
   do! _ := write_n_samples (Some n) in
   do! measurements_set := call_run_circuitset_and_measure backend frame_circuits in
   do! _ := write_n_samples saved_n_samples in
   mreturn measurements_set)%M w
  = (Ok measurements_set,
     MkWorld (MkBackendState (n_samples (backend_state w)) (device st))
             (trace w ++ [ReadNSamples; ReadNSamples; WriteNSamples (Some n);
                          CallRunCircuitsetAndMeasure frame_circuits;
                          WriteNSamples (n_samples (backend_state w))])).
Proof.
  intros Hrun. unfold mbind', read_n_samples, write_n_samples,
    call_run_circuitset_and_measure, mreturn. simpl. rewrite Hrun. simpl.
  by rewrite <- !app_assoc.
Qed.

(** The same block on the path where the batched run raises: the
    exception leaves the block before the restoring assignment, and the
    backend keeps whatever the failed run left in it. *)
Lemma override_not_restored_when_run_raises
    (backend : Backend) (frame_circuits : list Circuit) (n : Z) (w : World)
    (e : Exception) (st : BackendState) :
  run_circuitset_and_measure (as_quantum_backend backend) frame_circuits
    (MkBackendState (Some n) (device (backend_state w)))
  = (Raise e, st) →
  (do! _ := read_n_samples in
   do! saved_n_samples := read_n_samples in
   do! _ := write_n_samples (Some n) in
   do! measurements_set := call_run_circuitset_and_measure backend frame_circuits in
   do! _ := write_n_samples saved_n_samples in
   mreturn measurements_set)%M w
  = (Raise e,
     MkWorld st
             (trace w ++ [ReadNSamples; ReadNSamples; WriteNSamples (Some n);
                          CallRunCircuitsetAndMeasure frame_circuits])).
Proof.
  intros Hrun. unfold mbind', read_n_samples, write_n_samples,
    call_run_circuitset_and_measure, mreturn. simpl. rewrite Hrun. simpl.
  by rewrite <- !app_assoc.
Qed.

(** Whenever [BasicEstimator] is given [n_samples] and returns, the
    backend's [n_samples] is what it was before the call. *)
Lemma BasicEstimator_restores_n_samples_on_return
    (backend : Backend) (circuit : Circuit) (target_operator : QubitOperator Coef)
    (n : Z) (epsilon delta : option Float) (decomposition_method : string)
    (w w' : World) (ev : ExpectationValues) :
  BasicEstimator_get_estimated_expectation_values
    backend circuit target_operator (Some n) epsilon delta decomposition_method w
  = (Ok ev, w') →
  n_samples (backend_state w') = n_samples (backend_state w).
Proof.
  unfold BasicEstimator_get_estimated_expectation_values.
  unfold mbind' at 1. unfold lift at 1.
  destruct (get_decomposition_function decomposition_method) as [f|]; [|discriminate].
  unfold mbind' at 1. unfold lift at 1.
  destruct (f target_operator) as [groups|]; [|discriminate].
  unfold mbind' at 1. unfold lift at 1.
  destruct (for_each groups (append_frame circuit) ([], []))
    as [[frame_circuits frame_operators]|]; [|discriminate].
  unfold mbind' at 1.
  destruct (run_circuitset_and_measure (as_quantum_backend backend) frame_circuits
              (MkBackendState (Some n) (device (backend_state w))))
    as [[ms|e] st] eqn:Hrun.
  - rewrite (override_restores_when_run_returns _ _ _ _ _ _ Hrun).
    unfold mbind', lift.
    repeat (match goal with
            | |- context [match ?r with Ok _ => _ | Raise _ => _ end] =>
                destruct r; try discriminate
            end).
    intros [= _ <-]. reflexivity.
  - rewrite (override_not_restored_when_run_raises _ _ _ _ _ _ Hrun). discriminate.
Qed.
End EstimatorFacts.

(** ** The cost function *)

Section CostFunctionFacts.
Context `{External}.

(** C7: when the ansatz builds a circuit for the effective parameters and
    the estimator returns expectation values for it, the call returns the
    value estimate whose value is the sum of those expectation values; the
    effective parameters are the input vector when [fixed_parameters] is
    unset and the combination of the fixed with the input vector when it
    is set. *)
Theorem cost_function_value (self : AnsatzBasedCostFunction)
    (parameters : ParamVector) (circuit : Circuit)
    (expectation_values : ExpectationValues) (w w' : World) :
  get_executable_circuit (ansatz self)
    (effective_parameters (fixed_parameters self) parameters) = Ok circuit →
  estimator self (backend self) circuit (target_operator self)
            (cf_n_samples self) (epsilon self) (delta self) w
  = (Ok expectation_values, w') →
  AnsatzBasedCostFunction_call self parameters w
  = (Ok (MkValueEstimate (np_sum (values expectation_values)) None), w')
  ∧ effective_parameters None parameters = parameters
  ∧ ∀ fixed, effective_parameters (Some fixed) parameters
             = combine_ansatz_params fixed parameters.
Proof.
  intros Hcircuit Hestimate. split; [|by split].
  unfold AnsatzBasedCostFunction_call, mbind', lift, mreturn.
  unfold effective_parameters in Hcircuit.
  destruct (fixed_parameters self); by rewrite Hcircuit, Hestimate.
Qed.
End CostFunctionFacts.

(** ** Gate records *)

Section GateFacts.
Context {Expr Text : Type}.
Variable expr_to_string : Expr -> string.
Variable sympify : string -> result Expr.
Variable SCHEMA_VERSION : string.
Variable json_dumps : GateDict Expr -> Text.
Variable json_loads : Text -> result (GateDict Expr).

(** The text of an expression parses back to the expression. *)
Hypothesis sympify_str : ∀ e, sympify (expr_to_string e) = Ok e.

(** A record in serializable form survives [json.dumps] / [json.loads]. *)
Hypothesis json_round_trip :
  ∀ schema qs rows,
    json_loads (json_dumps (MkGateDict schema (QubitsList qs) (ElementRows rows)))
    = Ok (MkGateDict schema (QubitsList qs) (ElementRows rows)).

Lemma sympify_row_loop (row acc : list Expr) :
  for_each (map expr_to_string row)
    (fun acc element => (try! e := sympify element in Ok (acc ++ [e]))%res) acc
  = Ok (acc ++ row).
Proof.
  revert acc. induction row as [|e row IH]; intros acc; simpl.
  - by rewrite app_nil_r.
  - rewrite sympify_str. simpl. by rewrite IH, <- app_assoc.
Qed.

Lemma sympify_rows_loop (m acc : list (list Expr)) :
  for_each (map (map expr_to_string) m)
    (fun acc row => (try! r := sympify_row sympify row in Ok (acc ++ [r]))%res) acc
  = Ok (acc ++ m).
Proof.
  revert acc. induction m as [|row m IH]; intros acc; simpl.
  - by rewrite app_nil_r.
  - unfold sympify_row at 1. rewrite sympify_row_loop. simpl.
    by rewrite IH, <- app_assoc.
Qed.

Lemma load_dict_to_dict (g : Gate Expr) :
  valid_gate (matrix g) (qubits g) →
  load_dict sympify (to_dict expr_to_string SCHEMA_VERSION g true) = Ok g.
Proof.
  intros Hvalid. unfold load_dict, to_dict. simpl.
  rewrite sympify_rows_loop. simpl. unfold Gate_init.
  rewrite decide_True by done. by destruct g.
Qed.

(** C8: for every valid gate, loading the file written by [save] yields
    the gate, and loading the record produced by
    [to_dict(serializable=True)] yields the gate. *)
Theorem Gate_save_load_round_trip (g : Gate Expr) :
  valid_gate (matrix g) (qubits g) →
  (∀ (files : Files Text) (filename : string),
      load sympify json_loads (inl filename)
           (save expr_to_string SCHEMA_VERSION json_dumps g filename files)
      = Ok g)
  ∧ (∀ files : Files Text,
        load sympify json_loads
             (inr (to_dict expr_to_string SCHEMA_VERSION g true)) files
        = Ok g).
Proof.
  intros Hvalid. split.
  - intros files filename. unfold load, save, Files in *.
    rewrite lookup_insert_eq. unfold to_dict at 1. rewrite json_round_trip. simpl.
    by apply load_dict_to_dict.
  - intros files. by apply load_dict_to_dict.
Qed.
End GateFacts.

(** ** The concrete collaborators form an operator algebra *)

Section ConcreteAlgebra.
Import Concrete.

Lemma poly_mul_cons (x : list nat * Z) (a b : Poly) :
  poly_mul (x :: a) b = map (times x) b ++ poly_mul a b.
Proof. reflexivity. Qed.

Lemma poly_mul_app (a1 a2 b : Poly) :
  poly_mul (a1 ++ a2) b = poly_mul a1 b ++ poly_mul a2 b.
Proof. unfold poly_mul. apply flat_map_app. Qed.

Lemma times_assoc (x y z : list nat * Z) : times (times x y) z = times x (times y z).
Proof. unfold times. simpl. by rewrite app_assoc, Z.mul_assoc. Qed.

Lemma poly_mul_map_times (x : list nat * Z) (b c : Poly) :
  poly_mul (map (times x) b) c = map (times x) (poly_mul b c).
Proof.
  induction b as [|y b IH]; [done|].
  cbn [map]. rewrite !poly_mul_cons, map_app, IH, map_map. f_equal.
  apply map_ext. intros z. apply times_assoc.
Qed.

Lemma poly_mul_1_l (a : Poly) : poly_mul [([], 1)] a = a.
Proof.
  rewrite poly_mul_cons. change (poly_mul [] a) with (@nil (list nat * Z)).
  rewrite app_nil_r. rewrite <- (map_id a) at 2.
  apply map_ext. intros [t c]. unfold times. simpl. f_equal. lia.
Qed.

Lemma poly_mul_1_r (a : Poly) : poly_mul a [([], 1)] = a.
Proof.
  induction a as [|[t c] a IH]; [done|].
  rewrite poly_mul_cons, IH. unfold times. simpl.
  by rewrite app_nil_r, Z.mul_1_r.
Qed.

Lemma poly_mul_assoc (a b c : Poly) :
  poly_mul a (poly_mul b c) = poly_mul (poly_mul a b) c.
Proof.
  induction a as [|x a IH]; [done|].
  by rewrite !poly_mul_cons, poly_mul_app, poly_mul_map_times, IH.
Qed.

Lemma Concrete_laws : IsingLaws (H := external).
Proof.
  split; simpl.
  - apply poly_mul_1_l.
  - apply poly_mul_1_r.
  - apply poly_mul_assoc.
  - done.
  - apply app_nil_r.
  - apply app_assoc.
Qed.
End ConcreteAlgebra.

(** ** The theorems at concrete inputs *)

Section Witnesses.
Import Concrete.

(** X0 + 3 Y0 Y1 is refused. *)
Example conflicting_group_raises :
  get_context_selection_circuit_for_group conflicting_group = Raise not_comeasurable.
Proof. reflexivity. Qed.

(** X0 + 3 X0 Y1 needs one rotation on qubit 0 and one on qubit 1. *)
Example example_group_frame :
  get_context_selection_circuit_for_group example_group
  = Ok ([RY neg_half_pi 0; RX half_pi 1], [([0%nat], 1); ([0; 1]%nat, 3)]).
Proof. reflexivity. Qed.

(** A run that returns: the backend configured with 100 samples is run with
    10 and has 100 again afterwards. *)
Example n_samples_restored_when_run_returns :
  BasicEstimator_get_estimated_expectation_values
    (constant_backend 7) [] example_group (Some 10) None None "greedy-sorted"
    (initial_world (Some 100))
  = (Ok [7; 7],
     MkWorld (MkBackendState (Some 100) tt)
             [ReadNSamples; ReadNSamples; WriteNSamples (Some 10);
              CallRunCircuitsetAndMeasure
                [[RY neg_half_pi 0]; [RY neg_half_pi 0; RX half_pi 1]];
              WriteNSamples (Some 100)]).
Proof. vm_compute. reflexivity. Qed.

(** Without [n_samples] the backend's field is neither read nor written. *)
Example run_without_override :
  BasicEstimator_get_estimated_expectation_values
    (constant_backend 7) [] example_group None None None "greedy"
    (initial_world (Some 100))
  = (Ok [7; 7],
     MkWorld (MkBackendState (Some 100) tt)
             [CallRunCircuitsetAndMeasure
                [[RY neg_half_pi 0]; [RY neg_half_pi 0; RX half_pi 1]]]).
Proof. vm_compute. reflexivity. Qed.

(** The exact estimator on a device that is no simulator. *)
Example exact_estimator_on_device :
  ExactEstimator (constant_backend 7) [] example_group None None None
    (initial_world (Some 100))
  = (Raise not_a_simulator, initial_world (Some 100)).
Proof. reflexivity. Qed.

Lemma consistent_Forall (factors : list Factor) :
  Forall (fun f1 : Factor =>
            Forall (fun f2 : Factor => f1.1 = f2.1 → f1.2 = f2.2) factors) factors →
  consistent factors.
Proof.
  intros Hall f1 f2 H1 H2.
  rewrite Forall_forall in Hall. specialize (Hall f1 H1).
  rewrite Forall_forall in Hall. by apply Hall.
Defined.

Lemma example_group_wf : wf_operator example_group.
Proof. unfold wf_operator. apply (bool_decide_unpack _). vm_compute. exact I. Defined.

Lemma example_group_comeasurable : comeasurable example_group.
Proof.
  apply consistent_group_factors, consistent_Forall.
  apply (bool_decide_unpack _). vm_compute. exact I.
Defined.

Lemma unknown_method_raises_before_backend_witness :
  BasicEstimator_get_estimated_expectation_values
    (constant_backend 7) [] example_group (Some 10) None None "exhaustive"
    (initial_world (Some 100))
  = (Raise (ValueError (unrecognized_method_message "exhaustive")),
     initial_world (Some 100)).
Proof.
  apply (unknown_method_raises_before_backend
           (constant_backend 7) [] example_group (Some 10) None None "exhaustive"
           (initial_world (Some 100))); discriminate.
Defined.

Lemma not_comeasurable_iff_conflict_witness :
  wf_operator example_group
  ∧ ∃ circuit operator,
      get_context_selection_circuit_for_group example_group = Ok (circuit, operator).
Proof.
  split; [exact example_group_wf|].
  apply (not_comeasurable_iff_conflict example_group example_group_wf).
  exact example_group_comeasurable.
Defined.

Lemma get_context_selection_circuit_spec_witness :
  IsingLaws (H := external)
  ∧ get_context_selection_circuit example_term
    = ([RY neg_half_pi 0; RX half_pi 1], [([0; 1; 2]%nat, 1)]).
Proof.
  split; [exact Concrete_laws|].
  exact (proj1 (@get_context_selection_circuit_spec external Concrete_laws example_term)).
Defined.

Lemma group_circuit_and_frame_operator_witness :
  wf_operator example_group ∧ comeasurable example_group
  ∧ ∃ circuit,
      get_context_selection_circuit_for_group example_group
      = Ok (circuit, [([0%nat], 1); ([0; 1]%nat, 3)])
      ∧ (∀ q, (length (gates_on q circuit) ≤ 1)%nat).
Proof.
  split; [exact example_group_wf|]. split; [exact example_group_comeasurable|].
  destruct (@group_circuit_and_frame_operator external Concrete_laws example_group
              example_group_wf example_group_comeasurable)
    as (circuit & Heq & Hone & _).
  exists circuit. split; [exact Heq|exact Hone].
Defined.

Lemma cost_function_value_witness :
  AnsatzBasedCostFunction_call (H := external) example_cost_function [5]
    (initial_world None)
  = (Ok (MkValueEstimate 4 None),
     MkWorld (MkBackendState None tt)
             [CallGetExactExpectationValues [RX half_pi 0] example_group]).
Proof.
  exact (proj1 (cost_function_value (H := external) example_cost_function
                  [5] [RX half_pi 0] [4] (initial_world None) _ eq_refl eq_refl)).
Defined.

Lemma Gate_save_load_round_trip_witness :
  valid_gate (matrix identity_gate) (qubits identity_gate)
  ∧ load (Text := GateDict string) Ok Ok (inl "gate.json")
         (save (fun e => e) "zapata-v1" (fun d => d) identity_gate "gate.json" ∅)
    = Ok identity_gate.
Proof.
  assert (Hvalid : valid_gate (matrix identity_gate) (qubits identity_gate)).
  { unfold valid_gate. apply (bool_decide_unpack _). vm_compute. exact I. }
  split; [exact Hvalid|].
  apply (Gate_save_load_round_trip (fun e => e) Ok "zapata-v1" (fun d => d) Ok
           (fun e => eq_refl) (fun schema qs rows => eq_refl) identity_gate Hvalid).
Defined.

(** C1: a run that raises leaves the override in place.  The backend was
    configured with 100 samples; the call asks for 10; the batched run
    fails; afterwards the backend's [n_samples] is 10, the trace holding
    the write of 10 and no restoring write. *)
Theorem n_samples_not_restored_when_run_raises :
  BasicEstimator_get_estimated_expectation_values
    failing_backend [] example_group (Some 10) None None "greedy-sorted"
    (initial_world (Some 100))
  = (Raise (ExternalError "device unreachable"),
     MkWorld (MkBackendState (Some 10) tt)
             [ReadNSamples; ReadNSamples; WriteNSamples (Some 10);
              CallRunCircuitsetAndMeasure [[RY neg_half_pi 0]; [RY neg_half_pi 0; RX half_pi 1]]]).
Proof. vm_compute. reflexivity. Qed.
End Witnesses.

(** * Further properties *)

(** ** Context selection on arbitrary operators *)

Section GroupOutcome.
Context `{External}.

Lemma dict_get_key (d : list (Term * Coef)) (term : Term) :
  term ∈ d.*1 → ∃ coefficient, dict_get d term = Ok coefficient.
Proof.
  induction d as [|[k v] d IH]; simpl; intros Hin.
  - by apply elem_of_nil in Hin.
  - case_decide as Hk; [by eexists|].
    apply elem_of_cons in Hin as [->|Hin]; [done|by apply IH].
Qed.

(** The loop over the terms, whatever the coefficients: it ends with the
    extended context or with the not-co-measurable error. *)
Lemma visit_terms_outcome (qubit_operator : QubitOperator Coef)
    (keys : list Term) (context : list Factor) (operator : IsingOperator) :
  Forall (fun term => ∃ c, dict_get (terms qubit_operator) term = Ok c) keys →
  consistent context →
  (∃ operator',
      for_each keys (visit_term qubit_operator) (context, operator)
      = Ok (extend_context context (concat keys), operator')
      ∧ consistent (context ++ concat keys))
  ∨ (for_each keys (visit_term qubit_operator) (context, operator)
     = Raise not_comeasurable
     ∧ inconsistent (context ++ concat keys)).
Proof.
  revert context operator.
  induction keys as [|t keys IH]; intros context operator Hget Hc;
    cbn [for_each concat].
  - left. exists operator. by rewrite app_nil_r.
  - apply Forall_cons in Hget as [[c Ht] Hget].
    unfold visit_term at 1 3.
    destruct (visit_factors_cases t context ising_one Hc) as [[-> Hc1]|[-> Hi]];
      cbn [rbind].
    + rewrite Ht. cbn [rbind].
      assert (Hsame : ∀ x, x ∈ extend_context context t ++ concat keys
                           ↔ x ∈ context ++ t ++ concat keys).
      { intros x. rewrite !elem_of_app, elem_of_extend_context. tauto. }
      edestruct (IH (extend_context context t)) as [(o' & -> & Hc2)|[-> Hi2]]; [done| |..].
      * eapply consistent_subseteq; [|exact Hc1].
        intros x. rewrite elem_of_extend_context, elem_of_app. tauto.
      * left. exists o'. rewrite extend_context_app. split; [done|].
        eapply consistent_subseteq; [|exact Hc2]. intros x. apply Hsame.
      * right. split; [done|].
        eapply inconsistent_subseteq; [|exact Hi2]. intros x. apply Hsame.
    + right. split; [done|].
      eapply inconsistent_subseteq; [|exact Hi].
      intros x. rewrite !elem_of_app. tauto.
Qed.

Lemma group_outcome (qubit_operator : QubitOperator Coef) :
  (∃ operator,
      get_context_selection_circuit_for_group qubit_operator
      = Ok (flat_map rotation_of (extend_context [] (group_factors qubit_operator)),
            operator)
      ∧ consistent (group_factors qubit_operator))
  ∨ (get_context_selection_circuit_for_group qubit_operator = Raise not_comeasurable
     ∧ inconsistent (group_factors qubit_operator)).
Proof.
  unfold get_context_selection_circuit_for_group, group_factors.
  destruct (visit_terms_outcome qubit_operator (term_keys qubit_operator) [] ising_zero)
    as [(o' & -> & Hc)|[-> Hi]]; cbn [rbind].
  - apply Forall_forall. intros t Ht. by apply dict_get_key.
  - intros f1 f2 H1. by apply elem_of_nil in H1.
  - left. exists o'. by rewrite fold_append_rotation.
  - by right.
Qed.

(** X1: on every operator, well-formed or not, the group builder raises
    exactly when two factors anywhere in the group give one qubit different
    letters (also within one term), the error is then the not-co-measurable
    [ValueError] and never another one (no [KeyError] from the coefficient
    lookup), and otherwise a pair is returned. *)
Theorem group_raises_iff_inconsistent (qubit_operator : QubitOperator Coef) :
  (get_context_selection_circuit_for_group qubit_operator = Raise not_comeasurable
   ↔ inconsistent (group_factors qubit_operator))
  ∧ (∀ e, get_context_selection_circuit_for_group qubit_operator = Raise e →
          e = not_comeasurable)
  ∧ ((∃ circuit operator,
         get_context_selection_circuit_for_group qubit_operator = Ok (circuit, operator))
     ↔ consistent (group_factors qubit_operator)).
Proof.
  destruct (group_outcome qubit_operator) as [(o & Heq & Hc)|[Heq Hi]]; rewrite Heq.
  - apply consistent_not_inconsistent in Hc as Hni.
    split; [|split].
    + split; [discriminate|done].
    + discriminate.
    + split; [done|eauto].
  - split; [|split].
    + done.
    + by intros e [= <-].
    + split; [by intros (c & o & ?)|].
      intros Hc. by apply consistent_not_inconsistent in Hc.
Qed.

(** X2: the circuit of a group and whether the group is refused depend on
    the terms only, not on their coefficients: two operators with the same
    keys in the same order raise the same error or return the same circuit. *)
Theorem group_circuit_ignores_coefficients (op1 op2 : QubitOperator Coef) :
  term_keys op1 = term_keys op2 →
  (∀ e, get_context_selection_circuit_for_group op1 = Raise e
        ↔ get_context_selection_circuit_for_group op2 = Raise e)
  ∧ (∀ circuit operator1,
        get_context_selection_circuit_for_group op1 = Ok (circuit, operator1) →
        ∃ operator2,
          get_context_selection_circuit_for_group op2 = Ok (circuit, operator2)).
Proof.
  intros Hkeys.
  assert (Hfactors : group_factors op1 = group_factors op2)
    by (unfold group_factors; by rewrite Hkeys).
  destruct (group_outcome op1) as [(o1 & Heq1 & Hc1)|[Heq1 Hi1]];
    destruct (group_outcome op2) as [(o2 & Heq2 & Hc2)|[Heq2 Hi2]];
    rewrite Heq1, Heq2.
  - split; [done|]. intros c o [= <- <-]. exists o2. by rewrite Hfactors.
  - rewrite Hfactors in Hc1. by apply consistent_not_inconsistent in Hc1.
  - rewrite Hfactors in Hi1. by apply consistent_not_inconsistent in Hc2.
  - split; [done|]. discriminate.
Qed.

Lemma extend_context_fresh (factors context : list Factor) :
  NoDup (context ++ factors) → extend_context context factors = context ++ factors.
Proof.
  revert context. induction factors as [|f factors IH]; intros context Hnd; simpl.
  - by rewrite app_nil_r.
  - rewrite decide_False.
    + rewrite IH; rewrite <- app_assoc; done.
    + apply NoDup_app in Hnd as (_ & Hdisj & _). intros Hin.
      apply (Hdisj f Hin). by apply elem_of_cons; left.
Qed.

Lemma get_context_selection_circuit_fold (term : Term) :
  get_context_selection_circuit term
  = (flat_map rotation_of term,
     fold_left (fun operator factor => ising_mul operator (ising_Z factor.1))
               term ising_one).
Proof. unfold get_context_selection_circuit. by rewrite selection_loop. Qed.

(** X3: a group of one term whose factors sit on distinct qubits gets the
    circuit the single-term builder gives that term, and as frame operator
    the term's frame operator scaled by the coefficient and added to the
    zero operator. *)
Theorem single_term_group_agrees (term : Term) (coefficient : Coef) :
  NoDup term.*1 →
  get_context_selection_circuit_for_group (MkQubitOperator [(term, coefficient)])
  = Ok ((get_context_selection_circuit term).1,
        ising_add ising_zero
          (ising_scale (get_context_selection_circuit term).2 coefficient)).
Proof.
  intros Hnd. rewrite get_context_selection_circuit_fold.
  unfold get_context_selection_circuit_for_group, term_keys. cbn [terms fmap list_fmap fst].
  cbn [for_each]. unfold visit_term.
  destruct (visit_factors_cases term [] ising_one) as [[-> Hc]|[_ Hi]].
  - intros f1 f2 H1. by apply elem_of_nil in H1.
  - cbn [rbind dict_get terms]. rewrite decide_True by done. cbn [rbind snd fst].
    rewrite fold_append_rotation, extend_context_fresh; [done|].
    eapply NoDup_fmap_1, Hnd.
  - exfalso. destruct Hi as (f1 & f2 & H1 & H2 & Hq & Hb). apply Hb.
    by rewrite (fst_injective_NoDup term f1 f2 Hnd H1 H2 Hq).
Qed.

Lemma length_flat_map_rotation (term : Term) :
  length (flat_map rotation_of term) = length (rotated_factors term).
Proof.
  unfold rotated_factors. induction term as [|f term IH]; [done|].
  cbn [flat_map]. rewrite length_app, IH, filter_cons, rotation_of_cases.
  repeat case_decide; simpl; try lia; tauto.
Qed.

(** X4: the circuit of a single term holds one gate per X or Y factor of
    the term (none for a term without such factors), and every gate is
    RY(-pi/2) or RX(+pi/2) on a qubit of the term. *)
Theorem single_term_circuit_shape (term : Term) :
  length (get_context_selection_circuit term).1 = length (rotated_factors term)
  ∧ Forall (fun g => ∃ q, q ∈ term.*1 ∧ (g = RY neg_half_pi q ∨ g = RX half_pi q))
           (get_context_selection_circuit term).1
  ∧ ((get_context_selection_circuit term).1 = [] ↔ rotated_factors term = []).
Proof.
  rewrite get_context_selection_circuit_fold. cbn [fst].
  split; [apply length_flat_map_rotation|]. split.
  - apply Forall_forall. intros g (f & Hf & Hg)%elem_of_flat_map_rotation.
    apply elem_of_rotation_of in Hg. exists f.1. split.
    + apply list_elem_of_fmap. by exists f.
    + destruct Hg as [[_ ->]|[_ ->]]; [by left|by right].
  - pose proof (length_flat_map_rotation term) as Hlen.
    split; intros Hnil; apply length_zero_iff_nil; rewrite Hnil in Hlen; done.
Qed.

Context `{!IsingLaws}.

Lemma Z_product_app (l1 l2 : list nat) :
  Z_product (l1 ++ l2) = ising_mul (Z_product l1) (Z_product l2).
Proof.
  induction l1 as [|q l1 IH]; simpl.
  - by rewrite ising_mul_1_l.
  - by rewrite IH, ising_mul_assoc.
Qed.

(** X5: context selection composes over concatenation: the circuit of
    [t1 ++ t2] is the circuit of [t1] followed by that of [t2], and its
    frame operator is the product of the two frame operators. *)
Theorem get_context_selection_circuit_app (t1 t2 : Term) :
  get_context_selection_circuit (t1 ++ t2)
  = ((get_context_selection_circuit t1).1 ++ (get_context_selection_circuit t2).1,
     ising_mul (get_context_selection_circuit t1).2 (get_context_selection_circuit t2).2).
Proof.
  rewrite !get_context_selection_circuit_fold. cbn [fst snd].
  rewrite !fold_mul_Z_product, !ising_mul_1_l, flat_map_app.
  by rewrite fmap_app, Z_product_app.
Qed.
End GroupOutcome.

(** ** The basic estimator, path by path *)

Section BasicEstimatorPaths.
Context `{External}.

(** The method as its three parts: frames, batch, aggregation. *)
Lemma BasicEstimator_unfold
    (backend : Backend) (circuit : Circuit) (target_operator : QubitOperator Coef)
    (n : option Z) (epsilon delta : option Float) (decomposition_method : string)
    (w : World) :
  BasicEstimator_get_estimated_expectation_values
    backend circuit target_operator n epsilon delta decomposition_method w
  = match build_frames decomposition_method target_operator circuit with
    | Raise e => (Raise e, w)
    | Ok (frame_circuits, frame_operators) =>
        match n with
        | None =>
            let '(r, st) :=
              run_circuitset_and_measure (as_quantum_backend backend) frame_circuits
                (backend_state w) in
            (rbind r (aggregate frame_operators),
             MkWorld st (trace w ++ [CallRunCircuitsetAndMeasure frame_circuits]))
        | Some k =>
            let '(r, st) :=
              run_circuitset_and_measure (as_quantum_backend backend) frame_circuits
                (MkBackendState (Some k) (device (backend_state w))) in
            match r with
            | Ok measurements_set =>
                (aggregate frame_operators measurements_set,
                 MkWorld (MkBackendState (n_samples (backend_state w)) (device st))
                         (trace w ++ [ReadNSamples; ReadNSamples; WriteNSamples (Some k);
                                      CallRunCircuitsetAndMeasure frame_circuits;
                                      WriteNSamples (n_samples (backend_state w))]))
            | Raise e =>
                (Raise e,
                 MkWorld st
                         (trace w ++ [ReadNSamples; ReadNSamples; WriteNSamples (Some k);
                                      CallRunCircuitsetAndMeasure frame_circuits]))
            end
        end
    end.
Proof.
  unfold BasicEstimator_get_estimated_expectation_values, build_frames.
  unfold mbind' at 1. unfold lift at 1.
  destruct (get_decomposition_function decomposition_method) as [f|]; [|done].
  unfold mbind' at 1. unfold lift at 1. cbn [rbind].
  destruct (f target_operator) as [groups|]; [|done].
  unfold mbind' at 1. unfold lift at 1. cbn [rbind].
  destruct (for_each groups (append_frame circuit) ([], []))
    as [[frame_circuits frame_operators]|]; [|done].
  unfold mbind' at 1.
  assert (Hrest : ∀ ms w',
    (do! expectation_values_set :=
       lift (for_each (zip frame_operators ms) append_expectation_values []) in
     do! concatenated := lift (concatenate_expectation_values expectation_values_set) in
     lift (expectation_values_to_real concatenated))%M w'
    = (aggregate frame_operators ms, w')).
  { intros ms w'. unfold mbind', lift, aggregate.
    destruct (for_each (zip frame_operators ms) append_expectation_values [])
      as [evs|]; [|done]. cbn [rbind].
    by destruct (concatenate_expectation_values evs). }
  destruct n as [k|].
  - destruct (run_circuitset_and_measure (as_quantum_backend backend) frame_circuits
                (MkBackendState (Some k) (device (backend_state w))))
      as [[ms|e] st] eqn:Hrun.
    + rewrite (override_restores_when_run_returns _ _ _ _ _ _ Hrun). apply Hrest.
    + by rewrite (override_not_restored_when_run_raises _ _ _ _ _ _ Hrun).
  - unfold call_run_circuitset_and_measure.
    destruct (run_circuitset_and_measure (as_quantum_backend backend) frame_circuits
                (backend_state w)) as [[ms|e] st]; [apply Hrest|done].
Qed.

(** The loop that builds the frames: one frame per group, in order. *)
Lemma append_frame_loop (circuit : Circuit) (groups : list (QubitOperator Coef))
    (circuits0 circuits : list Circuit) (operators0 operators : list IsingOperator) :
  for_each groups (append_frame circuit) (circuits0, operators0)
  = Ok (circuits, operators) →
  ∃ frames,
    Forall2 (fun group frame => get_context_selection_circuit_for_group group = Ok frame)
            groups frames
    ∧ circuits = circuits0 ++ map (fun frame => Circuit_add circuit frame.1) frames
    ∧ operators = operators0 ++ map snd frames.
Proof.
  revert circuits0 operators0.
  induction groups as [|group groups IH]; intros circuits0 operators0; cbn [for_each].
  - intros [= <- <-]. exists []. by rewrite !app_nil_r.
  - unfold append_frame at 1.
    destruct (get_context_selection_circuit_for_group group) as [[c o]|] eqn:Hgroup;
      [|discriminate].
    cbn [rbind]. intros (frames & Hall & -> & ->)%IH.
    exists ((c, o) :: frames). split; [by constructor|].
    by rewrite <- !app_assoc.
Qed.

Lemma build_frames_Ok (decomposition_method : string)
    (target_operator : QubitOperator Coef) (circuit : Circuit)
    (circuits : list Circuit) (operators : list IsingOperator) :
  build_frames decomposition_method target_operator circuit = Ok (circuits, operators) →
  ∃ f groups frames,
    get_decomposition_function decomposition_method = Ok f
    ∧ f target_operator = Ok groups
    ∧ Forall2 (fun group frame => get_context_selection_circuit_for_group group = Ok frame)
              groups frames
    ∧ circuits = map (fun frame => Circuit_add circuit frame.1) frames
    ∧ operators = map snd frames.
Proof.
  unfold build_frames.
  destruct (get_decomposition_function decomposition_method) as [f|]; [|discriminate].
  cbn [rbind]. destruct (f target_operator) as [groups|] eqn:Hgroups; [|discriminate].
  cbn [rbind]. intros (frames & Hall & -> & ->)%append_frame_loop.
  by exists f, groups, frames.
Qed.

(** The accesses one call adds to the trace, with the batch it submitted. *)
Lemma BasicEstimator_trace
    (backend : Backend) (circuit : Circuit) (target_operator : QubitOperator Coef)
    (n : option Z) (epsilon delta : option Float) (decomposition_method : string)
    (w : World) :
  (BasicEstimator_get_estimated_expectation_values
     backend circuit target_operator n epsilon delta decomposition_method w).2 = w
  ∨ ∃ circuits operators,
      build_frames decomposition_method target_operator circuit = Ok (circuits, operators)
      ∧ match n with
        | None =>
            (BasicEstimator_get_estimated_expectation_values
               backend circuit target_operator n epsilon delta decomposition_method w).2
            = MkWorld
                (run_circuitset_and_measure (as_quantum_backend backend) circuits
                   (backend_state w)).2
                (trace w ++ [CallRunCircuitsetAndMeasure circuits])
        | Some k =>
            trace (BasicEstimator_get_estimated_expectation_values
                     backend circuit target_operator n epsilon delta
                     decomposition_method w).2
            = trace w ++ [ReadNSamples; ReadNSamples; WriteNSamples (Some k);
                          CallRunCircuitsetAndMeasure circuits]
            ∨ trace (BasicEstimator_get_estimated_expectation_values
                       backend circuit target_operator n epsilon delta
                       decomposition_method w).2
              = trace w ++ [ReadNSamples; ReadNSamples; WriteNSamples (Some k);
                            CallRunCircuitsetAndMeasure circuits;
                            WriteNSamples (n_samples (backend_state w))]
        end.
Proof.
  rewrite BasicEstimator_unfold.
  destruct (build_frames decomposition_method target_operator circuit)
    as [[circuits operators]|]; [|by left].
  right. exists circuits, operators. split; [done|].
  destruct n as [k|].
  - destruct (run_circuitset_and_measure (as_quantum_backend backend) circuits
                (MkBackendState (Some k) (device (backend_state w)))) as [[ms|e] st];
      [by right|by left].
  - by destruct (run_circuitset_and_measure (as_quantum_backend backend) circuits
                   (backend_state w)).
Qed.

(** X6: whatever the estimator submits to the backend is a batch with one
    circuit per group of the decomposition, in group order, each being the
    state-preparation circuit followed by that group's context-selection
    circuit. *)
Theorem batch_holds_one_circuit_per_group
    (backend : Backend) (circuit : Circuit) (target_operator : QubitOperator Coef)
    (n : option Z) (epsilon delta : option Float) (decomposition_method : string)
    (w : World) (f : DecompositionFunction) (groups : list (QubitOperator Coef))
    (batch : list Circuit) :
  get_decomposition_function decomposition_method = Ok f →
  f target_operator = Ok groups →
  CallRunCircuitsetAndMeasure batch
  ∈ drop (length (trace w))
         (trace (BasicEstimator_get_estimated_expectation_values
                   backend circuit target_operator n epsilon delta
                   decomposition_method w).2) →
  Forall2 (fun group frame_circuit =>
             ∃ c o, get_context_selection_circuit_for_group group = Ok (c, o)
                    ∧ frame_circuit = Circuit_add circuit c)
          groups batch.
Proof.
  intros Hf Hgroups Hin.
  destruct (BasicEstimator_trace backend circuit target_operator n epsilon delta
              decomposition_method w) as [Hsame|(circuits & operators & Hframes & Htrace)].
  { rewrite Hsame, drop_all in Hin. by apply elem_of_nil in Hin. }
  apply build_frames_Ok in Hframes as (f' & groups' & frames & Hf' & Hgroups' & Hall & -> & _).
  rewrite Hf in Hf'. injection Hf' as <-. rewrite Hgroups in Hgroups'. injection Hgroups' as <-.
  assert (Hbatch : batch = map (fun frame => Circuit_add circuit frame.1) frames).
  { destruct n as [k|].
    - destruct Htrace as [Htrace|Htrace]; rewrite Htrace, drop_app_length in Hin;
        rewrite !elem_of_cons, elem_of_nil in Hin;
        destruct Hin as [?|[?|[?|Hin]]]; try discriminate;
        destruct Hin as [[= ->]|Hin]; try done;
        destruct Hin as [?|[]]; discriminate.
    - rewrite Htrace in Hin. cbn [trace] in Hin. rewrite drop_app_length in Hin.
      apply list_elem_of_singleton in Hin. by injection Hin. }
  subst batch. clear Htrace Hin Hgroups.
  induction Hall as [|group [c o] groups frames Hg Hall IH]; cbn [map];
    constructor; [by exists c, o|done].
Qed.

Lemma append_frame_loop_refused (circuit : Circuit)
    (groups : list (QubitOperator Coef)) (st : list Circuit * list IsingOperator) :
  Exists (fun group => inconsistent (group_factors group)) groups →
  for_each groups (append_frame circuit) st = Raise not_comeasurable.
Proof.
  revert st. induction groups as [|group groups IH]; intros [circuits operators] Hex.
  - by apply Exists_nil in Hex.
  - cbn [for_each]. unfold append_frame at 1.
    destruct (group_outcome group) as [(o & -> & Hc)|[-> Hi]]; [|done].
    cbn [rbind]. apply IH. apply Exists_cons in Hex as [Hi|Hex]; [|done].
    by apply consistent_not_inconsistent in Hc.
Qed.

(** X7: an exception raised before the batch leaves the backend as it was,
    with nothing added to the trace: an exception of the grouping function
    is passed on, and a decomposition with a group that gives one qubit two
    letters ends in the not-co-measurable error, whatever [n_samples] is. *)
Theorem errors_before_the_batch_leave_backend_untouched
    (backend : Backend) (circuit : Circuit) (target_operator : QubitOperator Coef)
    (n : option Z) (epsilon delta : option Float) (decomposition_method : string)
    (w : World) (f : DecompositionFunction) :
  get_decomposition_function decomposition_method = Ok f →
  (∀ e, f target_operator = Raise e →
        BasicEstimator_get_estimated_expectation_values
          backend circuit target_operator n epsilon delta decomposition_method w
        = (Raise e, w))
  ∧ (∀ groups, f target_operator = Ok groups →
               Exists (fun group => inconsistent (group_factors group)) groups →
               BasicEstimator_get_estimated_expectation_values
                 backend circuit target_operator n epsilon delta decomposition_method w
               = (Raise not_comeasurable, w)).
Proof.
  intros Hf. split.
  - intros e He. rewrite BasicEstimator_unfold. unfold build_frames.
    by rewrite Hf; cbn [rbind]; rewrite He.
  - intros groups Hgroups Hex. rewrite BasicEstimator_unfold. unfold build_frames.
    rewrite Hf; cbn [rbind]; rewrite Hgroups; cbn [rbind].
    by rewrite append_frame_loop_refused.
Qed.

(** X8: on every path the call only appends to the trace, and what it
    appends is nothing, or the one batched run alone (without [n_samples]),
    or two reads and the overriding write followed by the one run and at
    most the restoring write: the backend is run at most once, its exact
    evaluation is never called, and [n_samples] is never touched when the
    argument is [None]. *)
Theorem BasicEstimator_access_protocol
    (backend : Backend) (circuit : Circuit) (target_operator : QubitOperator Coef)
    (n : option Z) (epsilon delta : option Float) (decomposition_method : string)
    (w : World) :
  ∃ accesses,
    trace (BasicEstimator_get_estimated_expectation_values
             backend circuit target_operator n epsilon delta decomposition_method w).2
    = trace w ++ accesses
    ∧ basic_estimator_accesses n (n_samples (backend_state w)) accesses.
Proof.
  destruct (BasicEstimator_trace backend circuit target_operator n epsilon delta
              decomposition_method w) as [-> | (circuits & operators & _ & Htrace)].
  { exists []. split; [by rewrite app_nil_r|by left]. }
  destruct n as [k|].
  - destruct Htrace as [-> | ->]; eexists; (split; [reflexivity|]);
      right; exists circuits; [by left|by right].
  - rewrite Htrace. eexists. split; [reflexivity|]. right. by exists circuits.
Qed.

(** X9: with [n_samples] given, the backend's [n_samples] after the call is
    its value from before the call on every path but one: the path on which
    the batched run itself raises, where the call passes that exception on
    and the backend is left as the failed run left it. *)
Theorem n_samples_restored_unless_run_raises
    (backend : Backend) (circuit : Circuit) (target_operator : QubitOperator Coef)
    (k : Z) (epsilon delta : option Float) (decomposition_method : string)
    (w : World) :
  n_samples (backend_state
               (BasicEstimator_get_estimated_expectation_values
                  backend circuit target_operator (Some k) epsilon delta
                  decomposition_method w).2)
  = n_samples (backend_state w)
  ∨ ∃ batch e st,
      run_circuitset_and_measure (as_quantum_backend backend) batch
        (MkBackendState (Some k) (device (backend_state w))) = (Raise e, st)
      ∧ BasicEstimator_get_estimated_expectation_values
          backend circuit target_operator (Some k) epsilon delta decomposition_method w
        = (Raise e,
           MkWorld st (trace w ++ [ReadNSamples; ReadNSamples; WriteNSamples (Some k);
                                   CallRunCircuitsetAndMeasure batch])).
Proof.
  rewrite BasicEstimator_unfold.
  destruct (build_frames decomposition_method target_operator circuit)
    as [[circuits operators]|]; [|by left].
  destruct (run_circuitset_and_measure (as_quantum_backend backend) circuits
              (MkBackendState (Some k) (device (backend_state w))))
    as [[ms|e] st] eqn:Hrun; [by left|].
  right. by exists circuits, e, st.
Qed.

(** X10: without [n_samples] the estimator itself changes no field of the
    backend: after the call the backend is as it was, or exactly as the one
    batched run left it. *)
Theorem without_n_samples_backend_is_as_run_left_it
    (backend : Backend) (circuit : Circuit) (target_operator : QubitOperator Coef)
    (epsilon delta : option Float) (decomposition_method : string) (w : World) :
  (BasicEstimator_get_estimated_expectation_values
     backend circuit target_operator None epsilon delta decomposition_method w).2 = w
  ∨ ∃ batch,
      (BasicEstimator_get_estimated_expectation_values
         backend circuit target_operator None epsilon delta decomposition_method w).2
      = MkWorld
          (run_circuitset_and_measure (as_quantum_backend backend) batch
             (backend_state w)).2
          (trace w ++ [CallRunCircuitsetAndMeasure batch]).
Proof.
  destruct (BasicEstimator_trace backend circuit target_operator None epsilon delta
              decomposition_method w) as [-> | (circuits & operators & _ & Htrace)];
    [by left|right; by exists circuits].
Qed.

Lemma zip_app_surplus {A B} (l : list A) (k extra : list B) :
  (length l ≤ length k)%nat → zip l (k ++ extra) = zip l k.
Proof.
  revert k. induction l as [|x l IH]; intros [|y k] Hlen; simpl in *; try done; try lia.
  f_equal. apply IH. lia.
Qed.

Lemma aggregate_surplus (frame_operators : list IsingOperator)
    (measurements_set extra : list Measurements) :
  (length frame_operators ≤ length measurements_set)%nat →
  aggregate frame_operators (measurements_set ++ extra)
  = aggregate frame_operators measurements_set.
Proof. intros Hlen. unfold aggregate. by rewrite zip_app_surplus. Qed.

(** X11: the estimator does not check how many measurement results the
    backend returns: results beyond the number of submitted circuits are
    dropped by the [zip].  Two backends that behave alike except that the
    second returns surplus results give the same outcome and leave the same
    world. *)
Theorem surplus_measurements_are_ignored (b1 b2 : QuantumBackend)
    (circuit : Circuit) (target_operator : QubitOperator Coef)
    (n : option Z) (epsilon delta : option Float) (decomposition_method : string)
    (w : World) :
  (∀ batch st,
      match run_circuitset_and_measure b1 batch st with
      | (Ok measurements_set, st') =>
          (length batch ≤ length measurements_set)%nat
          ∧ ∃ extra, run_circuitset_and_measure b2 batch st
                     = (Ok (measurements_set ++ extra), st')
      | (Raise e, st') => run_circuitset_and_measure b2 batch st = (Raise e, st')
      end) →
  BasicEstimator_get_estimated_expectation_values
    (PlainBackend b2) circuit target_operator n epsilon delta decomposition_method w
  = BasicEstimator_get_estimated_expectation_values
      (PlainBackend b1) circuit target_operator n epsilon delta decomposition_method w.
Proof.
  intros Halike. rewrite !BasicEstimator_unfold.
  destruct (build_frames decomposition_method target_operator circuit)
    as [[circuits operators]|] eqn:Hframes; [|done].
  apply build_frames_Ok in Hframes as (f & groups & frames & _ & _ & _ & -> & ->).
  cbn [as_quantum_backend].
  assert (Hlen : ∀ ms : list Measurements,
             (length (map (fun frame : Circuit * IsingOperator =>
                             Circuit_add circuit frame.1) frames) ≤ length ms)%nat →
             (length (map snd frames) ≤ length ms)%nat)
    by (intros ms; by rewrite !length_map).
  destruct n as [k|].
  - specialize (Halike (map (fun frame => Circuit_add circuit frame.1) frames)
                  (MkBackendState (Some k) (device (backend_state w)))).
    destruct (run_circuitset_and_measure b1 _ _) as [[ms|e] st].
    + destruct Halike as [Hle [extra ->]]. by rewrite aggregate_surplus by auto.
    + by rewrite Halike.
  - specialize (Halike (map (fun frame => Circuit_add circuit frame.1) frames)
                  (backend_state w)).
    destruct (run_circuitset_and_measure b1 _ _) as [[ms|e] st].
    + destruct Halike as [Hle [extra ->]]. cbn [rbind].
      by rewrite aggregate_surplus by auto.
    + by rewrite Halike.
Qed.

(** X12: a decomposition into no groups still reaches the backend: the run
    is called once with an empty batch, and when it returns, the result is
    the converted concatenation of no expectation values, whatever
    measurements came back. *)
Theorem empty_decomposition_runs_empty_batch
    (backend : Backend) (circuit : Circuit) (target_operator : QubitOperator Coef)
    (epsilon delta : option Float) (decomposition_method : string) (w : World)
    (f : DecompositionFunction) :
  get_decomposition_function decomposition_method = Ok f →
  f target_operator = Ok [] →
  BasicEstimator_get_estimated_expectation_values
    backend circuit target_operator None epsilon delta decomposition_method w
  = ((try! _ := (run_circuitset_and_measure (as_quantum_backend backend) []
                   (backend_state w)).1 in
      try! concatenated := concatenate_expectation_values [] in
      expectation_values_to_real concatenated)%res,
     MkWorld (run_circuitset_and_measure (as_quantum_backend backend) []
                (backend_state w)).2
             (trace w ++ [CallRunCircuitsetAndMeasure []])).
Proof.
  intros Hf Hgroups. rewrite BasicEstimator_unfold. unfold build_frames.
  rewrite Hf; cbn [rbind]; rewrite Hgroups; cbn [rbind for_each].
  by destruct (run_circuitset_and_measure (as_quantum_backend backend) []
                 (backend_state w)) as [[ms|e] st].
Qed.
End BasicEstimatorPaths.

(** ** The cost function, path by path *)

Section CostFunctionPaths.
Context `{External}.

(** X13: an exception of the ansatz is passed on by the cost function, and
    the estimator is never run: the world is the one the call started in. *)
Theorem ansatz_failure_propagates (self : AnsatzBasedCostFunction)
    (parameters : ParamVector) (e : Exception) (w : World) :
  get_executable_circuit (ansatz self)
    (effective_parameters (fixed_parameters self) parameters) = Raise e →
  AnsatzBasedCostFunction_call self parameters w = (Raise e, w).
Proof.
  intros Hraise. unfold AnsatzBasedCostFunction_call, mbind', lift.
  unfold effective_parameters in Hraise.
  destruct (fixed_parameters self); by rewrite Hraise.
Qed.

(** X14: an exception of the estimator is passed on by the cost function
    together with the world the estimator left. *)
Theorem estimator_failure_propagates (self : AnsatzBasedCostFunction)
    (parameters : ParamVector) (circuit : Circuit) (e : Exception) (w w' : World) :
  get_executable_circuit (ansatz self)
    (effective_parameters (fixed_parameters self) parameters) = Ok circuit →
  estimator self (backend self) circuit (target_operator self)
            (cf_n_samples self) (epsilon self) (delta self) w
  = (Raise e, w') →
  AnsatzBasedCostFunction_call self parameters w = (Raise e, w').
Proof.
  intros Hcircuit Hraise. unfold AnsatzBasedCostFunction_call, mbind', lift.
  unfold effective_parameters in Hcircuit.
  destruct (fixed_parameters self); by rewrite Hcircuit, Hraise.
Qed.

(** X15: a cost function built without an estimator uses the basic
    estimator, so when it is built with [n_samples] and a call returns, the
    backend's [n_samples] is what it was before the call, even if the
    backend changed it during the run. *)
Theorem default_cost_function_restores_n_samples
    (target_operator : QubitOperator Coef) (ansatz : Ansatz) (backend : Backend)
    (k : Z) (epsilon delta : option Float) (fixed_parameters : option ParamVector)
    (parameters : ParamVector) (estimate : ValueEstimate) (w w' : World) :
  AnsatzBasedCostFunction_call
    (AnsatzBasedCostFunction_init target_operator ansatz backend None (Some k)
       epsilon delta fixed_parameters)
    parameters w
  = (Ok estimate, w') →
  n_samples (backend_state w') = n_samples (backend_state w).
Proof.
  unfold AnsatzBasedCostFunction_call, AnsatzBasedCostFunction_init. cbn -[BasicEstimator].
  destruct (get_executable_circuit ansatz _) as [circuit|]; [|discriminate].
  unfold mbind', BasicEstimator.
  destruct (BasicEstimator_get_estimated_expectation_values
              backend circuit target_operator (Some k) epsilon delta "greedy-sorted" w)
    as [[ev|e] w1] eqn:Hbasic; [|discriminate].
  unfold mreturn. intros [= _ <-].
  by eapply BasicEstimator_restores_n_samples_on_return.
Qed.

(** X16: a cost function whose estimator is the exact estimator and whose
    backend is not a simulator raises the [AttributeError] on every
    parameter vector the ansatz accepts, and leaves the backend untouched. *)
Theorem exact_cost_function_needs_simulator
    (target_operator : QubitOperator Coef) (ansatz : Ansatz) (b : QuantumBackend)
    (n : option Z) (epsilon delta : option Float) (fixed_parameters : option ParamVector)
    (parameters : ParamVector) (circuit : Circuit) (w : World) :
  get_executable_circuit ansatz (effective_parameters fixed_parameters parameters)
  = Ok circuit →
  AnsatzBasedCostFunction_call
    (AnsatzBasedCostFunction_init target_operator ansatz (PlainBackend b)
       (Some ExactEstimator) n epsilon delta fixed_parameters)
    parameters w
  = (Raise not_a_simulator, w).
Proof.
  intros Hcircuit. unfold AnsatzBasedCostFunction_call, AnsatzBasedCostFunction_init.
  cbn. unfold effective_parameters in Hcircuit. unfold mbind', lift.
  destruct fixed_parameters; by rewrite Hcircuit.
Qed.
End CostFunctionPaths.

(** ** The further properties at concrete inputs *)

Section FurtherWitnesses.
Import Concrete Scenarios.

(** X0 Y0 as a single term is refused as well. *)
Example self_conflicting_group_raises :
  get_context_selection_circuit_for_group self_conflicting_group = Raise not_comeasurable.
Proof. reflexivity. Qed.

Lemma group_circuit_ignores_coefficients_witness :
  term_keys example_group = term_keys reweighted_group
  ∧ ∃ operator,
      get_context_selection_circuit_for_group reweighted_group
      = Ok ([RY neg_half_pi 0; RX half_pi 1], operator).
Proof.
  split; [reflexivity|].
  exact (proj2 (group_circuit_ignores_coefficients example_group reweighted_group eq_refl)
               [RY neg_half_pi 0; RX half_pi 1] [([0%nat], 1); ([0; 1]%nat, 3)] eq_refl).
Defined.

Lemma example_term_distinct_qubits : NoDup example_term.*1.
Proof. apply (bool_decide_unpack _). vm_compute. exact I. Qed.

Lemma single_term_group_agrees_witness :
  NoDup example_term.*1
  ∧ get_context_selection_circuit_for_group (MkQubitOperator [(example_term, 4)])
    = Ok ([RY neg_half_pi 0; RX half_pi 1], [([0; 1; 2]%nat, 4)]).
Proof.
  split; [exact example_term_distinct_qubits|].
  exact (single_term_group_agrees (H := external) example_term 4
           example_term_distinct_qubits).
Defined.

Lemma get_context_selection_circuit_app_witness :
  IsingLaws (H := external)
  ∧ get_context_selection_circuit (example_term ++ [(3%nat, "X")])
    = ([RY neg_half_pi 0; RX half_pi 1] ++ [RY neg_half_pi 3],
       poly_mul [([0; 1; 2]%nat, 1)] [([3%nat], 1)]).
Proof.
  split; [exact Concrete_laws|].
  exact (@get_context_selection_circuit_app external Concrete_laws
           example_term [(3%nat, "X")]).
Defined.

Lemma batch_holds_one_circuit_per_group_witness :
  Forall2 (fun group frame_circuit =>
             ∃ c o, get_context_selection_circuit_for_group group = Ok (c, o)
                    ∧ frame_circuit = Circuit_add [RX half_pi 2] c)
          [MkQubitOperator [([(0%nat, "X")], 1)];
           MkQubitOperator [([(0%nat, "X"); (1%nat, "Y")], 3)]]
          [[RX half_pi 2; RY neg_half_pi 0];
           [RX half_pi 2; RY neg_half_pi 0; RX half_pi 1]].
Proof.
  apply (batch_holds_one_circuit_per_group (H := external)
           (constant_backend 7) [RX half_pi 2] example_group (Some 10) None None "greedy"
           (initial_world (Some 100))
           (fun qubit_operator => singleton_groups qubit_operator None)
           _ _ eq_refl eq_refl).
  vm_compute. do 3 apply list_elem_of_further. apply list_elem_of_here.
Defined.

Lemma self_conflicting_group_inconsistent :
  inconsistent (group_factors self_conflicting_group).
Proof.
  exists (0%nat, "X"), (0%nat, "Y"). split; [|split; [|split]].
  - apply list_elem_of_here.
  - apply list_elem_of_further, list_elem_of_here.
  - reflexivity.
  - discriminate.
Qed.

Lemma errors_before_the_batch_witness :
  BasicEstimator_get_estimated_expectation_values
    (constant_backend 7) [] self_conflicting_group (Some 10) None None "greedy"
    (initial_world (Some 100))
  = (Raise not_comeasurable, initial_world (Some 100)).
Proof.
  apply (proj2 (errors_before_the_batch_leave_backend_untouched (H := external)
                  (constant_backend 7) [] self_conflicting_group (Some 10) None None
                  "greedy" (initial_world (Some 100))
                  (fun qubit_operator => singleton_groups qubit_operator None) eq_refl)
               [self_conflicting_group] eq_refl).
  apply Exists_cons_hd. exact self_conflicting_group_inconsistent.
Defined.

Lemma surplus_measurements_are_ignored_witness :
  BasicEstimator_get_estimated_expectation_values
    (generous_backend 7) [] example_group (Some 10) None None "greedy-sorted"
    (initial_world (Some 100))
  = BasicEstimator_get_estimated_expectation_values
      (constant_backend 7) [] example_group (Some 10) None None "greedy-sorted"
      (initial_world (Some 100)).
Proof.
  apply (surplus_measurements_are_ignored (H := external)
           (as_quantum_backend (constant_backend 7))
           (as_quantum_backend (generous_backend 7))).
  intros batch st. cbn. split.
  - by rewrite length_map.
  - by exists [[7 + 1]].
Defined.

Lemma empty_decomposition_runs_empty_batch_witness :
  BasicEstimator_get_estimated_expectation_values
    (constant_backend 7) [RX half_pi 2] (MkQubitOperator []) None None None "greedy"
    (initial_world (Some 100))
  = (Ok [],
     MkWorld (MkBackendState (Some 100) tt) [CallRunCircuitsetAndMeasure []]).
Proof.
  exact (empty_decomposition_runs_empty_batch (H := external)
           (constant_backend 7) [RX half_pi 2] (MkQubitOperator []) None None "greedy"
           (initial_world (Some 100))
           (fun qubit_operator => singleton_groups qubit_operator None) eq_refl eq_refl).
Defined.

Lemma ansatz_failure_propagates_witness :
  AnsatzBasedCostFunction_call (H := external) unbuildable_cost_function [5]
    (initial_world (Some 100))
  = (Raise (ExternalError "wrong number of parameters"), initial_world (Some 100)).
Proof.
  exact (ansatz_failure_propagates (H := external) unbuildable_cost_function [5]
           (ExternalError "wrong number of parameters") (initial_world (Some 100))
           eq_refl).
Defined.

Lemma estimator_failure_propagates_witness :
  AnsatzBasedCostFunction_call (H := external) exact_on_device_cost_function [5]
    (initial_world (Some 100))
  = (Raise not_a_simulator, initial_world (Some 100)).
Proof.
  exact (estimator_failure_propagates (H := external) exact_on_device_cost_function [5]
           [RX half_pi 0] not_a_simulator (initial_world (Some 100))
           (initial_world (Some 100)) eq_refl eq_refl).
Defined.

Lemma default_cost_function_restores_n_samples_witness :
  AnsatzBasedCostFunction_call (H := external) default_cost_function [5]
    (initial_world (Some 100))
  = (Ok (MkValueEstimate 14 None),
     MkWorld (MkBackendState (Some 100) tt)
             [ReadNSamples; ReadNSamples; WriteNSamples (Some 10);
              CallRunCircuitsetAndMeasure
                [[RX half_pi 0; RY neg_half_pi 0];
                 [RX half_pi 0; RY neg_half_pi 0; RX half_pi 1]];
              WriteNSamples (Some 100)])
  ∧ n_samples (backend_state
                 (MkWorld (MkBackendState (Some 100) tt)
                    [ReadNSamples; ReadNSamples; WriteNSamples (Some 10);
                     CallRunCircuitsetAndMeasure
                       [[RX half_pi 0; RY neg_half_pi 0];
                        [RX half_pi 0; RY neg_half_pi 0; RX half_pi 1]];
                     WriteNSamples (Some 100)]))
    = n_samples (backend_state (initial_world (Some 100))).
Proof.
  assert (Hcall :
    AnsatzBasedCostFunction_call (H := external) default_cost_function [5]
      (initial_world (Some 100))
    = (Ok (MkValueEstimate 14 None),
       MkWorld (MkBackendState (Some 100) tt)
               [ReadNSamples; ReadNSamples; WriteNSamples (Some 10);
                CallRunCircuitsetAndMeasure
                  [[RX half_pi 0; RY neg_half_pi 0];
                   [RX half_pi 0; RY neg_half_pi 0; RX half_pi 1]];
                WriteNSamples (Some 100)])).
  { vm_compute. reflexivity. }
  split; [exact Hcall|].
  exact (default_cost_function_restores_n_samples (H := external)
           example_group example_ansatz (meddling_backend 7) 10 None None None [5]
           _ _ _ Hcall).
Defined.

Lemma exact_cost_function_needs_simulator_witness :
  AnsatzBasedCostFunction_call (H := external) exact_on_device_cost_function [5]
    (initial_world None)
  = (Raise not_a_simulator, initial_world None).
Proof.
  exact (exact_cost_function_needs_simulator (H := external)
           example_group example_ansatz (as_quantum_backend (constant_backend 7))
           None None None None [5] [RX half_pi 0] (initial_world None) eq_refl).
Defined.
End FurtherWitnesses.
